(** * Quantitative finance service

    A shallow embedding of [quant_finance_service.py]: the three handlers
    [get_stock_data], [analyze_portfolio] and [ai_financial_advice], the
    Python string and float-formatting primitives they use, and the two
    external collaborators (the price-history source and the inference
    endpoint), which are modelled as oracles over an explicit world state.

    Conventions.
    - A Python [str] is a [string] whose characters stand for code points
      below 256.
    - A Python [float] (and a NumPy [float64]) is a binary64 [float].
    - Exceptions are the instances of Python's [Exception]; both
      [except Exception as e] and the bare [except:] catch every one of
      them.  Interpreter signals outside that class are not modelled.
    - Handlers run in the monad [M]: a world goes in, an outcome (a value
      or a raised exception) and the next world come out. *)

From Stdlib Require Import ZArith List String Ascii Floats Lia Bool DecimalString.
From Stdlib Require Import Permutation.
Import ListNotations.

Local Open Scope string_scope.
Local Open Scope Z_scope.

Set Implicit Arguments.
Set Warnings "-register-all".

(** ** Python strings *)

Definition nl : string := String (ascii_of_nat 10) EmptyString.

(** [str.isspace] on one character, for code points below 256. *)
Definition isspace (c : ascii) : bool :=
  let n := Z.of_nat (nat_of_ascii c) in
  ((9 <=? n) && (n <=? 13)) || ((28 <=? n) && (n <=? 32))
  || (n =? 133) || (n =? 160).

Fixpoint lstrip (s : string) : string :=
  match s with
  | EmptyString => EmptyString
  | String c rest => if isspace c then lstrip rest else s
  end.

Fixpoint rstrip (s : string) : string :=
  match s with
  | EmptyString => EmptyString
  | String c rest =>
      match rstrip rest with
      | EmptyString => if isspace c then EmptyString else String c EmptyString
      | kept => String c kept
      end
  end.

(** [s.strip()] *)
Definition strip (s : string) : string := rstrip (lstrip s).

(** [s.split(sep)] for a one-character separator: every occurrence
    separates, empty fields are kept, and the result is never empty. *)
Fixpoint split (sep : ascii) (s : string) : list string :=
  match s with
  | EmptyString => [EmptyString]
  | String c rest =>
      if Ascii.eqb c sep then EmptyString :: split sep rest
      else match split sep rest with
           | [] => [String c EmptyString]
           | field :: fields => String c field :: fields
           end
  end.

(** [s * n] *)
Fixpoint str_mul (s : string) (n : nat) : string :=
  match n with
  | O => EmptyString
  | S n' => s ++ str_mul s n'
  end.

(** [s.startswith(p)] *)
Definition startswith (s p : string) : bool := String.prefix p s.

(** [sub in s] as a proposition. *)
Definition contains (s sub : string) : Prop :=
  exists before after, s = before ++ sub ++ after.

(** ** Floats and the format specifications [.2f] and [+.2f] *)

Definition show_Z (z : Z) : string :=
  NilZero.string_of_uint (N.to_uint (Z.to_N z)).

Definition zfill (width : nat) (s : string) : string :=
  str_mul "0" (width - String.length s) ++ s.

(** The integer nearest to [m * 2^e * 10^prec], ties to the even one: the
    correctly rounded decimal conversion of Python's fixed-point format. *)
Definition scaled_round (prec : nat) (m e : Z) : Z :=
  let n := m * 10 ^ Z.of_nat prec in
  if 0 <=? e then n * 2 ^ e
  else
    let d := 2 ^ (- e) in
    let q := n / d in
    let r := n mod d in
    match (2 * r ?= d) with
    | Lt => q
    | Gt => q + 1
    | Eq => if Z.even q then q else q + 1
    end.

Definition fixed_digits (prec : nat) (n : Z) : string :=
  let p := 10 ^ Z.of_nat prec in
  match prec with
  | O => show_Z n
  | _ => show_Z (n / p) ++ "." ++ zfill prec (show_Z (n mod p))
  end.

Definition sign_str (always_sign negative : bool) : string :=
  if negative then "-" else if always_sign then "+" else EmptyString.

(** [format(x, '.<prec>f')] and, with [always_sign], [format(x, '+.<prec>f')].
    The sign of a NaN is ignored; negative zero keeps its sign. *)
Definition format_f (always_sign : bool) (prec : nat) (x : float) : string :=
  match Prim2SF x with
  | S754_nan => sign_str always_sign false ++ "nan"
  | S754_infinity s => sign_str always_sign s ++ "inf"
  | S754_zero s => sign_str always_sign s ++ fixed_digits prec 0
  | S754_finite s m e =>
      sign_str always_sign s ++ fixed_digits prec (scaled_round prec (Zpos m) e)
  end.

(** ** Outcomes and exceptions *)

Record exn : Type := Exn {
  exc_class : string;   (* the name of the exception's class *)
  exc_str : string      (* [str(e)] *)
}.

Inductive outcome (A : Type) : Type :=
| Returns (a : A)
| Raises (e : exn).

Arguments Returns {A} a.
Arguments Raises {A} e.

Definition outcome_bind {A B} (o : outcome A) (k : A -> outcome B) : outcome B :=
  match o with
  | Returns a => k a
  | Raises e => Raises e
  end.

(** ** Dictionaries, in insertion order *)

Definition dict (V : Type) : Type := list (string * V).

(** [d[k] = v]: an existing key keeps its position and takes the new
    value, a new key goes last. *)
Fixpoint dict_set {V} (d : dict V) (k : string) (v : V) : dict V :=
  match d with
  | [] => [(k, v)]
  | (k', v') :: d' =>
      if String.eqb k' k then (k, v) :: d' else (k', v') :: dict_set d' k v
  end.

Fixpoint dict_lookup {V} (d : dict V) (k : string) : option V :=
  match d with
  | [] => None
  | (k', v') :: d' => if String.eqb k' k then Some v' else dict_lookup d' k
  end.

(** [d.items()] *)
Definition items {V} (d : dict V) : list (string * V) := d.

Definition keys {V} (d : dict V) : list string := map fst d.

(** ** Python values, as far as JSON produces them *)

Inductive pyval : Type :=
| PyNone
| PyBool (b : bool)
| PyInt (z : Z)
| PyFloat (x : float)
| PyStr (s : string)
| PyList (l : list pyval)
| PyDict (d : list (string * pyval)).

Definition type_name (v : pyval) : string :=
  match v with
  | PyNone => "NoneType"
  | PyBool _ => "bool"
  | PyInt _ => "int"
  | PyFloat _ => "float"
  | PyStr _ => "str"
  | PyList _ => "list"
  | PyDict _ => "dict"
  end.

Definition is_str (v : pyval) : bool :=
  match v with PyStr _ => true | _ => false end.

(** A JSON document; the members of an object are in document order and
    a name may occur more than once. *)
Inductive json : Type :=
| JNull
| JBool (b : bool)
| JInt (z : Z)
| JReal (x : float)
| JString (s : string)
| JArray (l : list json)
| JObject (members : list (string * json)).

(** [json.loads] on a parsed document: an object becomes a [dict], built
    member by member, so that a repeated name keeps its last value. *)
Fixpoint loads (j : json) : pyval :=
  match j with
  | JNull => PyNone
  | JBool b => PyBool b
  | JInt z => PyInt z
  | JReal x => PyFloat x
  | JString s => PyStr s
  | JArray l => PyList (map loads l)
  | JObject members =>
      PyDict (fold_left (fun d m => dict_set d (fst m) (loads (snd m))) members [])
  end.

Definition AttributeError (v : pyval) (attr : string) : exn :=
  Exn "AttributeError"
      ("'" ++ type_name v ++ "' object has no attribute '" ++ attr ++ "'").

(** [v.get(k, default)]: only a [dict] has the method. *)
Definition py_get (v : pyval) (k : string) (default : pyval) : outcome pyval :=
  match v with
  | PyDict d =>
      Returns (match dict_lookup d k with Some x => x | None => default end)
  | _ => Raises (AttributeError v "get")
  end.

(** ** Price series *)

Record bar : Type := Bar {
  Date : Z;
  Open : float;
  High : float;
  Low : float;
  Close : float;
  Volume : Z
}.

(** A [DataFrame] of price bars, oldest first. *)
Definition DataFrame : Type := list bar.

(** [data.empty] *)
Definition empty (data : DataFrame) : bool :=
  match data with [] => true | _ :: _ => false end.

(** [data['Close']] *)
Definition Close_column (data : DataFrame) : list float := map Close data.

Definition IndexError : exn :=
  Exn "IndexError" "single positional indexer is out-of-bounds".

(** [series.iloc[i]]: a negative position counts from the end. *)
Definition iloc (series : list float) (i : Z) : outcome float :=
  let n := Z.of_nat (List.length series) in
  let j := if i <? 0 then i + n else i in
  if (0 <=? j) && (j <? n) then
    match nth_error series (Z.to_nat j) with
    | Some x => Returns x
    | None => Raises IndexError
    end
  else Raises IndexError.

(** [data.tail()]: the last five rows. *)
Definition tail (data : DataFrame) : DataFrame :=
  skipn (List.length data - 5) data.

(** [yf.Ticker(symbol)] records the symbol; the data is fetched by
    [history]. *)
Record Ticker : Type := MkTicker { ticker_symbol : string }.

(** ** The HTTP response of the inference endpoint *)

Record Response : Type := MkResponse {
  status_code : Z;
  body : option json     (* [None]: the body is not a JSON document *)
}.

Definition JSONDecodeError : exn :=
  Exn "JSONDecodeError" "Expecting value: line 1 column 1 (char 0)".

(** [response.json()] *)
Definition Response_json (response : Response) : outcome pyval :=
  match body response with
  | Some j => Returns (loads j)
  | None => Raises JSONDecodeError
  end.

(** ** The external collaborators and the handler monad *)

(** The services a handler calls: the price-history source behind
    [ticker.history(period=...)], the HTTP client behind
    [requests.post(url, json=...)], and pandas' rendering of a frame as
    text.  The first two read and change the world, and may raise. *)
Record Services : Type := MkServices {
  World : Type;
  history : Ticker -> string -> World -> outcome DataFrame * World;
  requests_post : string -> pyval -> World -> outcome Response * World;
  to_string : DataFrame -> string
}.

Section Handlers.

Context {env : Services}.

Definition M (A : Type) : Type := World env -> outcome A * World env.

Definition ret {A} (a : A) : M A := fun w => (Returns a, w).

Definition bind {A B} (m : M A) (k : A -> M B) : M B :=
  fun w =>
    match m w with
    | (Returns a, w') => k a w'
    | (Raises e, w') => (Raises e, w')
    end.

(** A computation without effects, run inside a handler. *)
Definition lift {A} (o : outcome A) : M A := fun w => (o, w).

(** [try: body  except Exception as e: handler(e)]; the bare [except:] of
    the advice relay catches the same exceptions and ignores [e]. *)
Definition try_except {A} (body : M A) (handler : exn -> M A) : M A :=
  fun w =>
    match body w with
    | (Returns a, w') => (Returns a, w')
    | (Raises e, w') => handler e w'
    end.

(** [for x in l: s = body(s, x)] *)
Fixpoint for_each {A S} (l : list A) (body : S -> A -> M S) (s : S) : M S :=
  match l with
  | [] => ret s
  | x :: rest => bind (body s x) (for_each rest body)
  end.

End Handlers.

Arguments M env A : clear implicits.

Declare Scope handler_scope.
Delimit Scope handler_scope with handler.

Notation "x <- m ;; k" := (bind m (fun x => k))
  (at level 100, m at next level, right associativity) : handler_scope.

Notation "x <~ o ;; k" := (outcome_bind o (fun x => k))
  (at level 100, o at next level, right associativity) : handler_scope.

Local Open Scope handler_scope.

(** ** The handlers *)

Section Service.

Context {env : Services}.

Definition get_stock_data (symbol : string) (period : string) : M env string :=
  try_except
    (let ticker := MkTicker symbol in
     data <- history env ticker period ;;
     ret ("Stock data for " ++ symbol ++ ":" ++ nl
            ++ to_string env (tail data)))
    (fun e => ret ("Error fetching data for " ++ symbol ++ ": " ++ exc_str e)).

(** The value stored under a symbol in [portfolio_data]. *)
Record entry : Type := MkEntry {
  current_price : float;
  change : float;
  change_pct : float
}.

(** The dictionary display of lines 26 to 30, evaluated on [data].  The
    closes are NumPy [float64] values: dividing by a zero close gives an
    infinity or a NaN and raises nothing. *)
Definition portfolio_entry (data : DataFrame) : outcome entry :=
  current_price <~ iloc (Close_column data) (-1) ;;
  change <~ (last <~ iloc (Close_column data) (-1) ;;
             first <~ iloc (Close_column data) 0 ;;
             Returns (last - first)%float) ;;
  change_pct <~ (last <~ iloc (Close_column data) (-1) ;;
                 first <~ iloc (Close_column data) 0 ;;
                 base <~ iloc (Close_column data) 0 ;;
                 Returns ((last - first) / base * 100)%float) ;;
  Returns (MkEntry current_price change change_pct).

(** One turn of the first loop. *)
Definition fetch_symbol (period : string) (portfolio_data : dict entry)
    (symbol : string) : M env (dict entry) :=
  let symbol := strip symbol in
  let ticker := MkTicker symbol in
  data <- history env ticker period ;;
  if negb (empty data) then
    e <- lift (portfolio_entry data) ;;
    ret (dict_set portfolio_data symbol e)
  else ret portfolio_data.

(** One turn of the second loop. *)
Definition render_line (result : string) (item : string * entry) : string :=
  let (symbol, data) := item in
  let result := result ++ symbol ++ ": $"
                  ++ format_f false 2 (current_price data) ++ " " in
  result ++ "(" ++ format_f true 2 (change data) ++ ", "
         ++ format_f true 2 (change_pct data) ++ "%)" ++ nl.

Definition header : string :=
  "Portfolio Analysis:" ++ nl ++ str_mul "=" 50 ++ nl.

Definition analyze_portfolio (symbols : string) (period : string) : M env string :=
  try_except
    (portfolio_data <- for_each (split "," symbols) (fetch_symbol period) [] ;;
     let result := "Portfolio Analysis:" ++ nl in
     let result := result ++ str_mul "=" 50 ++ nl in
     let result := fold_left render_line (items portfolio_data) result in
     ret result)
    (fun e => ret ("Error analyzing portfolio: " ++ exc_str e)).

Definition ai_financial_advice (query : string) : M env pyval :=
  try_except
    (response <-
       requests_post env "http://localhost:11434/api/generate"
         (PyDict [("model", PyStr "llama3.1:8b");
                  ("prompt", PyStr ("Provide financial advice for: " ++ query
                                      ++ ". Be concise and practical."));
                  ("stream", PyBool false)]) ;;
     if status_code response =? 200 then
       parsed <- lift (Response_json response) ;;
       lift (py_get parsed "response" (PyStr ("AI Response: " ++ query)))
     else ret (PyStr ("AI Response: " ++ query)))
    (fun _ => ret (PyStr ("AI Response: " ++ query))).

End Service.

(** ** Observers used to state the properties *)

(** The text of several lines, one after the other. *)
Definition cat (lines : list string) : string :=
  fold_right append EmptyString lines.

(** The number of newline characters, that is of newline-terminated
    lines, in a text. *)
Fixpoint count_nl (s : string) : nat :=
  match s with
  | EmptyString => O
  | String c rest => ((if Ascii.eqb c (ascii_of_nat 10) then 1 else 0) + count_nl rest)%nat
  end.

(** The line of one symbol, as the format
    [{symbol}: ${current_price:.2f} ({change:+.2f}, {change_pct:+.2f}%)]
    spells it. *)
Definition summary_line (item : string * entry) : string :=
  fst item ++ ": $" ++ format_f false 2 (current_price (snd item))
    ++ " (" ++ format_f true 2 (change (snd item))
    ++ ", " ++ format_f true 2 (change_pct (snd item)) ++ "%)" ++ nl.

(** The entry of a series whose first and last closes are given. *)
Definition entry_of (first last : float) : entry :=
  MkEntry last (last - first)%float ((last - first) / first * 100)%float.

Definition first_close (data : DataFrame) : option float :=
  hd_error (Close_column data).

Definition last_close (data : DataFrame) : option float :=
  hd_error (rev (Close_column data)).

(** The value a key was given last in a list of assignments. *)
Definition assigned_last {V} (k : string) (l : list (string * V)) : option V :=
  dict_lookup (rev l) k.

Definition nonempty (fetch : string * DataFrame) : bool := negb (empty (snd fetch)).

(** The symbols of a log, each once. *)
Definition distinct_symbols (log : list (string * DataFrame)) : list string :=
  nodup string_dec (map fst log).

(** The entry of a series, if it has one: a series without rows has none. *)
Definition entry_of_series (data : DataFrame) : option entry :=
  match first_close data, last_close data with
  | Some first, Some last => Some (entry_of first last)
  | _, _ => None
  end.

(** The assignments [portfolio_data[symbol] = ...] a log gives rise to. *)
Definition assignments (log : list (string * DataFrame)) : list (string * entry) :=
  flat_map (fun fetch =>
              match entry_of_series (snd fetch) with
              | Some e => [(fst fetch, e)]
              | None => []
              end) log.

Definition assign {V} (d : dict V) (m : string * V) : dict V :=
  dict_set d (fst m) (snd m).

(** [portfolio_data] after a log of fetches. *)
Definition portfolio_of (log : list (string * DataFrame)) : dict entry :=
  fold_left assign (assignments log) [].

Definition is_object (j : json) : bool :=
  match j with JObject _ => true | _ => false end.

(** What the advice relay answers when it has nothing from the endpoint. *)
Definition fallback (query : string) : pyval := PyStr ("AI Response: " ++ query).

Definition endpoint_url : string := "http://localhost:11434/api/generate".

Definition request_payload (query : string) : pyval :=
  PyDict [("model", PyStr "llama3.1:8b");
          ("prompt", PyStr ("Provide financial advice for: " ++ query
                              ++ ". Be concise and practical."));
          ("stream", PyBool false)].

(** [sep.join(fields)] for a one-character separator. *)
Fixpoint join (sep : ascii) (fields : list string) : string :=
  match fields with
  | [] => EmptyString
  | [field] => field
  | field :: rest => field ++ String sep (join sep rest)
  end.

(** [s.count(c)] for a character. *)
Fixpoint count_char (c : ascii) (s : string) : nat :=
  match s with
  | EmptyString => O
  | String x rest => ((if Ascii.eqb x c then 1 else 0) + count_char c rest)%nat
  end.

Definition first_char (s : string) : option ascii :=
  match s with
  | EmptyString => None
  | String c _ => Some c
  end.

Fixpoint last_char (s : string) : option ascii :=
  match s with
  | EmptyString => None
  | String c rest =>
      match last_char rest with
      | None => Some c
      | Some z => Some z
      end
  end.

(** A text that neither begins nor ends with whitespace. *)
Definition trimmed (s : string) : Prop :=
  match first_char s, last_char s with
  | Some a, Some z => isspace a = false /\ isspace z = false
  | _, _ => s = EmptyString
  end.

(** The elements of a list in the order in which they first occur. *)
Fixpoint first_occurrences (l : list string) : list string :=
  match l with
  | [] => []
  | x :: rest => x :: remove string_dec x (first_occurrences rest)
  end.

(** A key that is not among those already there. *)
Definition fresh (ks : list string) (k : string) : bool :=
  if in_dec string_dec k ks then false else true.

(** A float that is a number: neither an infinity nor a NaN. *)
Definition finite (x : float) : bool :=
  match Prim2SF x with
  | S754_zero _ | S754_finite _ _ _ => true
  | S754_infinity _ | S754_nan => false
  end.

(** The decimal digits. *)
Definition isdigit (c : ascii) : bool :=
  let n := nat_of_ascii c in (48 <=? n)%nat && (n <=? 57)%nat.

Fixpoint all_digits (s : string) : bool :=
  match s with
  | EmptyString => true
  | String c rest => isdigit c && all_digits rest
  end.

Section Observers.

Context {env : Services}.

(** What the first loop fetches: the trimmed symbol and the series of
    every turn, in order, provided that no [history] call raises. *)
Fixpoint fetch_log (period : string) (fields : list string) (w : World env)
    : option (list (string * DataFrame) * World env) :=
  match fields with
  | [] => Some ([], w)
  | field :: rest =>
      match history env (MkTicker (strip field)) period w with
      | (Returns data, w1) =>
          match fetch_log period rest w1 with
          | Some (log, w2) => Some ((strip field, data) :: log, w2)
          | None => None
          end
      | (Raises _, _) => None
      end
  end.

End Observers.

(** ** A test double of the services *)

Module Demo.

Record world : Type := MkWorld {
  clock : nat;                      (* the calls made so far *)
  endpoint : outcome Response      (* what the inference endpoint does *)
}.

Definition tick (w : world) : world := MkWorld (S (clock w)) (endpoint w).

Definition closes (l : list float) : DataFrame :=
  map (fun x => Bar 0 x x x x 0) l.

(** AAPL rises from 100 to 110 on the first call and to 120 later, TSLA
    falls, GONE has no data, and the lookup of DOWN fails. *)
Definition quotes (symbol : string) (now : nat) : outcome DataFrame :=
  if String.eqb symbol "AAPL" then
    Returns (closes (if Nat.eqb now 0 then [100; 104; 110] else [100; 120])%float)
  else if String.eqb symbol "TSLA" then Returns (closes [200; 150]%float)
  else if String.eqb symbol "DOWN" then Raises (Exn "ConnectionError" "network down")
  else Returns [].

Definition render (data : DataFrame) : string :=
  cat (map (fun b => format_f false 2 (Close b) ++ nl) data).

Definition services : Services :=
  MkServices
    (fun ticker _ w => (quotes (ticker_symbol ticker) (clock w), tick w))
    (fun _ _ w => (endpoint w, tick w))
    render.

Definition unreachable : world :=
  MkWorld 0 (Raises (Exn "ConnectionError" "connection refused")).

Definition answering (status : Z) (doc : option json) : world :=
  MkWorld 0 (Returns (MkResponse status doc)).

Definition gold : string := "Should I buy gold?".

Definition diversify : json :=
  JObject [("response", JString "Diversify your holdings.")].

Definition forty_two : json := JObject [("response", JInt 42)].

Definition no_answer : json := JObject [("done", JBool true)].

End Demo.

(** ** Recording the requests for histories *)

(** The services [env] with a record kept of the requests for a history:
    the world carries, next to the world of [env], the symbol and the
    period of every call of [history] so far, oldest first. *)
Definition traced (env : Services) : Services :=
  MkServices
    (fun ticker period (w : World env * list (string * string)) =>
       let (o, w') := history env ticker period (fst w) in
       (o, (w', (snd w ++ [(ticker_symbol ticker, period)])%list)))
    (fun url payload (w : World env * list (string * string)) =>
       let (o, w') := requests_post env url payload (fst w) in
       (o, (w', snd w)))
    (to_string env).

(** A price source that answers every request with the same frame; its
    world counts the calls, and its endpoint is unreachable. *)
Definition fixed_source (data : DataFrame) : Services :=
  MkServices
    (fun _ _ (calls : nat) => (Returns data, S calls))
    (fun _ _ (calls : nat) =>
       (Raises (Exn "ConnectionError" "connection refused"), S calls))
    Demo.render.

(** * Properties *)

(** ** The primitives on examples *)

Example split_keeps_empty_fields :
  split "," "AAPL, TSLA ,,x" = ["AAPL"; " TSLA "; EmptyString; "x"].
Proof. reflexivity. Qed.

Example split_of_empty_text : split "," EmptyString = [EmptyString].
Proof. reflexivity. Qed.

Example strip_trims_both_ends : strip "  BRK B  " = "BRK B".
Proof. reflexivity. Qed.

Example format_f_rounds_ties_to_even :
  format_f false 2 0.125%float = "0.12" /\ format_f false 2 0.375%float = "0.38".
Proof. split; reflexivity. Qed.

Example format_f_signs :
  format_f true 2 10%float = "+10.00"
  /\ format_f true 2 (-25)%float = "-25.00"
  /\ format_f false 2 (-0)%float = "-0.00"
  /\ format_f true 2 (0 / 0)%float = "+nan"
  /\ format_f true 2 (1 / 0)%float = "+inf".
Proof. repeat split; reflexivity. Qed.

Example iloc_counts_from_the_end :
  iloc [1; 2; 3]%float (-1) = Returns 3%float
  /\ iloc [1; 2; 3]%float 0 = Returns 1%float
  /\ iloc [] (-1) = Raises IndexError.
Proof. repeat split; reflexivity. Qed.

Example dict_set_keeps_the_position :
  dict_set (dict_set (dict_set [] "a" 1) "b" 2) "a" 3 = [("a", 3); ("b", 2)].
Proof. reflexivity. Qed.

Example loads_keeps_the_last_member :
  loads (JObject [("a", JInt 1); ("b", JNull); ("a", JString "z")])
  = PyDict [("a", PyStr "z"); ("b", PyNone)].
Proof. reflexivity. Qed.

Example summary_of_two_symbols :
  fst (analyze_portfolio (env:=Demo.services) "AAPL, TSLA ,GONE" "1mo"
         Demo.unreachable)
  = Returns ("Portfolio Analysis:" ++ nl
             ++ "==================================================" ++ nl
             ++ "AAPL: $110.00 (+10.00, +10.00%)" ++ nl
             ++ "TSLA: $150.00 (-50.00, -25.00%)" ++ nl).
Proof. reflexivity. Qed.

(** ** Strings *)

Lemma append_assoc (a b c : string) : (a ++ b) ++ c = a ++ (b ++ c).
Proof. induction a as [|x a IH]; simpl; [reflexivity | now rewrite IH]. Qed.

Lemma append_nil_r (s : string) : s ++ EmptyString = s.
Proof. induction s as [|x s IH]; simpl; [reflexivity | now rewrite IH]. Qed.

Lemma append_inv_head (a b c : string) : a ++ b = a ++ c -> b = c.
Proof.
  induction a as [|x a IH]; simpl; intro H; [exact H|].
  injection H as H. now apply IH.
Qed.

Lemma prefix_append (p s : string) : String.prefix p (p ++ s) = true.
Proof.
  induction p as [|x p IH]; simpl.
  - now destruct s.
  - destruct (ascii_dec x x) as [_|N]; [exact IH | now elim N].
Qed.

Lemma startswith_append (p s : string) : startswith (p ++ s) p = true.
Proof. apply prefix_append. Qed.

Lemma count_nl_append (a b : string) :
  count_nl (a ++ b) = (count_nl a + count_nl b)%nat.
Proof. induction a as [|x a IH]; simpl; [reflexivity | rewrite IH; lia]. Qed.

Lemma split_not_nil (sep : ascii) (s : string) : split sep s <> [].
Proof.
  induction s as [|c s IH]; simpl; [discriminate|].
  destruct (Ascii.eqb c sep); [discriminate|].
  destruct (split sep s); discriminate.
Qed.

(** ** Series *)

Lemma iloc_first (x : float) (series : list float) :
  iloc (x :: series) 0 = Returns x.
Proof.
  unfold iloc. cbn [List.length]. rewrite Nat2Z.inj_succ.
  replace (0 <? 0) with false by reflexivity.
  replace ((0 <=? 0) && (0 <? Z.succ (Z.of_nat (List.length series)))) with true.
  - reflexivity.
  - symmetry. apply andb_true_intro. split; [reflexivity | apply Z.ltb_lt; lia].
Qed.

Lemma iloc_last (front : list float) (y : float) :
  iloc (front ++ [y])%list (-1) = Returns y.
Proof.
  unfold iloc. rewrite length_app. cbn [List.length].
  replace (-1 <? 0) with true by reflexivity.
  set (n := List.length front).
  replace (-1 + Z.of_nat (n + 1)) with (Z.of_nat n) by lia.
  replace ((0 <=? Z.of_nat n) && (Z.of_nat n <? Z.of_nat (n + 1))) with true.
  - rewrite Nat2Z.id. unfold n. rewrite nth_error_app2 by lia.
    now rewrite Nat.sub_diag.
  - symmetry. apply andb_true_intro. split; [apply Z.leb_le | apply Z.ltb_lt]; lia.
Qed.

Lemma last_close_inv (data : DataFrame) (y : float) :
  last_close data = Some y -> exists front, Close_column data = (front ++ [y])%list.
Proof.
  unfold last_close. intro H.
  destruct (rev (Close_column data)) as [|z r] eqn:E; [discriminate|].
  injection H as ->. exists (rev r).
  rewrite <- (rev_involutive (Close_column data)), E. reflexivity.
Qed.

Lemma first_close_inv (data : DataFrame) (x : float) :
  first_close data = Some x -> exists back, Close_column data = x :: back.
Proof.
  unfold first_close. destruct (Close_column data) as [|z back]; [discriminate|].
  intro H. injection H as ->. now exists back.
Qed.

Lemma entry_of_series_nonempty (data : DataFrame) :
  data <> [] -> exists first last,
    first_close data = Some first /\ last_close data = Some last /\
    entry_of_series data = Some (entry_of first last).
Proof.
  intro H. unfold entry_of_series, first_close, last_close, Close_column.
  destruct data as [|b data]; [now elim H|].
  cbn [map hd_error].
  destruct (rev (Close b :: map Close data)) as [|y r] eqn:E.
  - apply (f_equal (@List.length float)) in E. rewrite length_rev in E. discriminate.
  - exists (Close b), y. cbn [hd_error]. auto.
Qed.

(** On a series with rows the dictionary display evaluates without an
    [IndexError], to the entry of its first and last closes. *)
Lemma portfolio_entry_spec (data : DataFrame) (first last : float) :
  first_close data = Some first -> last_close data = Some last ->
  portfolio_entry data = Returns (entry_of first last).
Proof.
  intros Hf Hl. unfold portfolio_entry.
  destruct (first_close_inv _ Hf) as [back Eb].
  destruct (last_close_inv _ Hl) as [front Ef].
  assert (L : iloc (Close_column data) (-1) = Returns last)
    by (rewrite Ef; apply iloc_last).
  assert (F : iloc (Close_column data) 0 = Returns first)
    by (rewrite Eb; apply iloc_first).
  rewrite L, F. reflexivity.
Qed.

(** ** Dictionaries *)

Section DictFacts.

Variable V : Type.
Implicit Types (d : dict V) (k : string) (v : V).

Lemma In_keys_dict_set d k v x :
  In x (keys (dict_set d k v)) <-> x = k \/ In x (keys d).
Proof.
  induction d as [|[k' v'] d IH]; simpl.
  - intuition.
  - destruct (String.eqb_spec k' k) as [->|N]; simpl; [intuition|].
    unfold keys in IH. rewrite IH. intuition.
Qed.

Lemma NoDup_keys_dict_set d k v :
  NoDup (keys d) -> NoDup (keys (dict_set d k v)).
Proof.
  induction d as [|[k' v'] d IH]; simpl; intro H.
  - constructor; [intros [] | constructor].
  - inversion H as [|? ? Hn Hd]; subst.
    destruct (String.eqb_spec k' k) as [->|N]; simpl.
    + now constructor.
    + constructor; [|now apply IH].
      intro Hin. apply In_keys_dict_set in Hin. destruct Hin as [->|Hin]; auto.
Qed.

Lemma keys_dict_set_old d k v :
  In k (keys d) -> keys (dict_set d k v) = keys d.
Proof.
  induction d as [|[k' v'] d IH]; simpl; intro H; [now elim H|].
  destruct (String.eqb_spec k' k) as [->|N]; simpl; [reflexivity|].
  destruct H as [E|H]; [now elim N|]. f_equal. now apply IH.
Qed.

Lemma keys_dict_set_new d k v :
  ~ In k (keys d) -> keys (dict_set d k v) = (keys d ++ [k])%list.
Proof.
  induction d as [|[k' v'] d IH]; simpl; intro H; [reflexivity|].
  destruct (String.eqb_spec k' k) as [->|N]; simpl; [elim H; now left|].
  f_equal. apply IH. intro Hin. apply H. now right.
Qed.

Lemma dict_lookup_set_same d k v : dict_lookup (dict_set d k v) k = Some v.
Proof.
  induction d as [|[k' v'] d IH]; simpl.
  - now rewrite String.eqb_refl.
  - destruct (String.eqb_spec k' k) as [->|N]; simpl.
    + now rewrite String.eqb_refl.
    + apply String.eqb_neq in N. now rewrite N.
Qed.

Lemma dict_lookup_set_other d k v x :
  x <> k -> dict_lookup (dict_set d k v) x = dict_lookup d x.
Proof.
  intro Hx. induction d as [|[k' v'] d IH]; simpl.
  - apply not_eq_sym, String.eqb_neq in Hx. now rewrite Hx.
  - destruct (String.eqb_spec k' k) as [->|N]; simpl.
    + apply not_eq_sym, String.eqb_neq in Hx. now rewrite Hx.
    + now rewrite IH.
Qed.

Lemma dict_lookup_app (l1 l2 : list (string * V)) x :
  dict_lookup (l1 ++ l2)%list x =
  match dict_lookup l1 x with
  | Some v => Some v
  | None => dict_lookup l2 x
  end.
Proof.
  induction l1 as [|[k' v'] l1 IH]; simpl; [reflexivity|].
  now destruct (String.eqb k' x).
Qed.

Lemma dict_lookup_None d x : dict_lookup d x = None <-> ~ In x (keys d).
Proof.
  induction d as [|[k' v'] d IH]; simpl; [intuition|].
  destruct (String.eqb_spec k' x) as [->|N].
  - split; [discriminate | intro H; elim H; now left].
  - rewrite IH. intuition.
Qed.

(** A dictionary built by assignments: its keys are the keys assigned,
    each once, and every key holds the value it was assigned last. *)
Lemma In_keys_fold_assign (l : list (string * V)) d x :
  In x (keys (fold_left (@assign V) l d)) <-> In x (keys d) \/ In x (map fst l).
Proof.
  revert d. induction l as [|[k v] l IH]; intro d; simpl; [intuition|].
  rewrite IH. unfold assign. simpl. rewrite In_keys_dict_set. intuition.
Qed.

Lemma NoDup_keys_fold_assign (l : list (string * V)) d :
  NoDup (keys d) -> NoDup (keys (fold_left (@assign V) l d)).
Proof.
  revert d. induction l as [|[k v] l IH]; intros d H; simpl; [exact H|].
  apply IH. now apply NoDup_keys_dict_set.
Qed.

Lemma dict_lookup_fold_assign (l : list (string * V)) d x :
  dict_lookup (fold_left (@assign V) l d) x =
  match assigned_last x l with
  | Some v => Some v
  | None => dict_lookup d x
  end.
Proof.
  revert d. induction l as [|[k v] l IH]; intro d; simpl; [reflexivity|].
  rewrite IH. unfold assigned_last. simpl. rewrite dict_lookup_app.
  destruct (dict_lookup (rev l) x) as [u|]; [reflexivity|].
  unfold assign. simpl. destruct (String.eqb_spec k x) as [->|N].
  - apply dict_lookup_set_same.
  - apply dict_lookup_set_other. congruence.
Qed.

(** As many keys as distinct keys assigned. *)
Lemma length_fold_assign (l : list (string * V)) :
  List.length (fold_left (@assign V) l []) =
  List.length (nodup string_dec (map fst l)).
Proof.
  assert (P : Permutation.Permutation
                (keys (fold_left (@assign V) l []))
                (nodup string_dec (map fst l))).
  { apply Permutation.NoDup_Permutation.
    - apply NoDup_keys_fold_assign. constructor.
    - apply NoDup_nodup.
    - intro x. rewrite In_keys_fold_assign, nodup_In. simpl. intuition. }
  apply Permutation.Permutation_length in P.
  unfold keys in P. now rewrite length_map in P.
Qed.

End DictFacts.

(** ** The loops of the portfolio summarizer *)

Lemma render_line_summary (result : string) (item : string * entry) :
  render_line result item = result ++ summary_line item.
Proof.
  destruct item as [symbol data]. unfold render_line, summary_line.
  cbn [fst snd]. rewrite !append_assoc. reflexivity.
Qed.

Lemma fold_render_line (its : list (string * entry)) (result : string) :
  fold_left render_line its result = result ++ cat (map summary_line its).
Proof.
  revert result. induction its as [|it its IH]; intro result; simpl.
  - now rewrite append_nil_r.
  - now rewrite IH, render_line_summary, append_assoc.
Qed.

Lemma count_nl_summary_line (item : string * entry) :
  (1 <= count_nl (summary_line item))%nat.
Proof.
  unfold summary_line. rewrite !count_nl_append.
  change (count_nl nl) with 1%nat. lia.
Qed.

Lemma assignments_app (l1 l2 : list (string * DataFrame)) :
  assignments (l1 ++ l2)%list = (assignments l1 ++ assignments l2)%list.
Proof. unfold assignments. now rewrite flat_map_app. Qed.

Lemma In_assignments (log : list (string * DataFrame)) (s : string) :
  In s (map fst (assignments log)) <->
  exists data, In (s, data) log /\ data <> [].
Proof.
  induction log as [|[s' data'] log IH].
  - simpl. split; [intros [] | intros (? & [] & _)].
  - change (assignments ((s', data') :: log))
      with ((match entry_of_series data' with
             | Some e => [(s', e)]
             | None => []
             end) ++ assignments log)%list.
    rewrite map_app, in_app_iff, IH. split.
    + intros [H|(data & Hin & Hne)].
      * destruct (entry_of_series data') as [e|] eqn:E; [|now elim H].
        destruct H as [H|[]]. simpl in H. subst s'.
        exists data'. split; [now left|]. intros ->. discriminate.
      * exists data. split; [now right | exact Hne].
    + intros (data & [E|Hin] & Hne).
      * injection E as -> ->. left.
        destruct (entry_of_series_nonempty Hne) as (x & y & _ & _ & ->).
        now left.
      * right. now exists data.
Qed.

Lemma assignments_filter (log : list (string * DataFrame)) :
  assignments (filter nonempty log) = assignments log.
Proof.
  induction log as [|[s data] log IH]; [reflexivity|].
  destruct data as [|b data].
  - exact IH.
  - change (filter nonempty ((s, b :: data) :: log))
      with ((s, b :: data) :: filter nonempty log).
    change ((s, b :: data) :: log) with ([(s, b :: data)] ++ log)%list.
    change ((s, b :: data) :: filter nonempty log)
      with ([(s, b :: data)] ++ filter nonempty log)%list.
    now rewrite !assignments_app, IH.
Qed.

Lemma map_fst_assignments (log : list (string * DataFrame)) :
  map fst (assignments log) = map fst (filter nonempty log).
Proof.
  induction log as [|[s data] log IH]; [reflexivity|].
  destruct data as [|b data].
  - exact IH.
  - change (filter nonempty ((s, b :: data) :: log))
      with ((s, b :: data) :: filter nonempty log).
    change ((s, b :: data) :: log) with ([(s, b :: data)] ++ log)%list.
    rewrite assignments_app, map_app, IH.
    destruct (@entry_of_series_nonempty (b :: data)) as (x & y & _ & _ & E);
      [discriminate|].
    unfold assignments at 1. simpl flat_map. cbn [snd fst]. rewrite E. reflexivity.
Qed.

Section LoopFacts.

Context {env : Services}.
Implicit Types (w : World env) (period field : string).

Lemma fetch_symbol_returns period (pd : dict entry) field w data w1 :
  history env (MkTicker (strip field)) period w = (Returns data, w1) ->
  fetch_symbol period pd field w =
    (Returns (fold_left assign (assignments [(strip field, data)]) pd), w1).
Proof.
  intro H. unfold fetch_symbol, bind. rewrite H.
  destruct data as [|b data].
  - reflexivity.
  - destruct (@entry_of_series_nonempty (b :: data)) as (x & y & Hx & Hy & E);
      [discriminate|].
    cbn [empty negb]. unfold lift. rewrite (portfolio_entry_spec _ Hx Hy).
    unfold assignments. simpl flat_map. cbn [snd fst]. rewrite E. reflexivity.
Qed.

Lemma fetch_symbol_raises period (pd : dict entry) field w e w1 :
  history env (MkTicker (strip field)) period w = (Raises e, w1) ->
  fetch_symbol period pd field w = (Raises e, w1).
Proof. intro H. unfold fetch_symbol, bind. now rewrite H. Qed.

(** When no fetch raises, the first loop returns the dictionary of the
    assignments of its log. *)
Lemma loop_returns period (fields : list string) :
  forall w log w' (pd : dict entry),
    fetch_log period fields w = Some (log, w') ->
    for_each fields (fetch_symbol period) pd w =
      (Returns (fold_left assign (assignments log) pd), w').
Proof.
  induction fields as [|field fields IH]; intros w log w' pd H; simpl in H.
  - injection H as <- <-. reflexivity.
  - destruct (history env (MkTicker (strip field)) period w) as [[data|e] w1] eqn:Hh;
      [|discriminate].
    destruct (fetch_log period fields w1) as [[log1 w2]|] eqn:Hl; [|discriminate].
    injection H as <- <-.
    cbn [for_each]. unfold bind. rewrite (fetch_symbol_returns _ _ _ _ Hh).
    rewrite (IH _ _ _ _ Hl).
    change ((strip field, data) :: log1)
      with ([(strip field, data)] ++ log1)%list.
    now rewrite assignments_app, fold_left_app.
Qed.

(** When a fetch raises, the first loop stops there and raises too. *)
Lemma loop_raises period (before after : list string) field :
  forall w log w1 e w2 (pd : dict entry),
    fetch_log period before w = Some (log, w1) ->
    history env (MkTicker (strip field)) period w1 = (Raises e, w2) ->
    for_each (before ++ field :: after)%list (fetch_symbol period) pd w =
      (Raises e, w2).
Proof.
  induction before as [|b before IH]; intros w log w1 e w2 pd H Hr; simpl in H.
  - injection H as <- <-. cbn [app for_each]. unfold bind.
    now rewrite (fetch_symbol_raises _ _ _ _ Hr).
  - destruct (history env (MkTicker (strip b)) period w) as [[data|e'] w0] eqn:Hh;
      [|discriminate].
    destruct (fetch_log period before w0) as [[log1 w3]|] eqn:Hl; [|discriminate].
    injection H as <- <-.
    cbn [app for_each]. unfold bind. rewrite (fetch_symbol_returns _ _ _ _ Hh).
    now apply (IH _ _ _ _ _ _ Hl).
Qed.

(** The first loop raises only where a fetch does. *)
Lemma loop_raises_inv period (fields : list string) :
  forall w (pd : dict entry) e w',
    for_each fields (fetch_symbol period) pd w = (Raises e, w') ->
    exists before field after log w1,
      fields = (before ++ field :: after)%list
      /\ fetch_log period before w = Some (log, w1)
      /\ history env (MkTicker (strip field)) period w1 = (Raises e, w').
Proof.
  induction fields as [|f fields IH]; intros w pd e w' H.
  - discriminate H.
  - cbn [for_each] in H. unfold bind in H.
    destruct (history env (MkTicker (strip f)) period w) as [[data|e0] w0] eqn:Hh.
    + rewrite (fetch_symbol_returns _ _ _ _ Hh) in H.
      destruct (IH _ _ _ _ H) as (before & field & after & log & w1 & -> & Hl & Hr).
      exists (f :: before), field, after, ((strip f, data) :: log), w1.
      split; [reflexivity|]. split; [|exact Hr].
      simpl. now rewrite Hh, Hl.
    + rewrite (fetch_symbol_raises _ _ _ _ Hh) in H. injection H as <- <-.
      exists [], f, fields, [], w. auto.
Qed.

Lemma analyze_portfolio_returns (symbols : string) period w log w' :
  fetch_log period (split "," symbols) w = Some (log, w') ->
  analyze_portfolio symbols period w =
    (Returns (header ++ cat (map summary_line (portfolio_of log))), w').
Proof.
  intro H. unfold analyze_portfolio, try_except, bind.
  erewrite loop_returns by exact H. unfold ret, items.
  now rewrite fold_render_line.
Qed.

Lemma analyze_portfolio_raises (symbols : string) period
    (before after : list string) field w log w1 e w2 :
  split "," symbols = (before ++ field :: after)%list ->
  fetch_log period before w = Some (log, w1) ->
  history env (MkTicker (strip field)) period w1 = (Raises e, w2) ->
  analyze_portfolio symbols period w =
    (Returns ("Error analyzing portfolio: " ++ exc_str e), w2).
Proof.
  intros Hs H Hr. unfold analyze_portfolio, try_except, bind.
  rewrite Hs. erewrite loop_raises by eassumption. reflexivity.
Qed.

End LoopFacts.

(** ** JSON objects as dictionaries *)

Lemma fold_loads_members (members : list (string * json)) (d : dict pyval) :
  fold_left (fun d m => dict_set d (fst m) (loads (snd m))) members d =
  fold_left assign (map (fun m => (fst m, loads (snd m))) members) d.
Proof.
  revert d. induction members as [|m members IH]; intro d; simpl; [reflexivity|].
  now rewrite IH.
Qed.

Lemma dict_lookup_map {A B} (f : A -> B) (l : list (string * A)) (k : string) :
  dict_lookup (map (fun m => (fst m, f (snd m))) l) k =
  option_map f (dict_lookup l k).
Proof.
  induction l as [|[k' a] l IH]; simpl; [reflexivity|].
  now destruct (String.eqb k' k).
Qed.

(** The member of a parsed object is the one the document names last. *)
Lemma lookup_loads_object (members : list (string * json)) (k : string) :
  match loads (JObject members) with
  | PyDict d => dict_lookup d k = option_map loads (assigned_last k members)
  | _ => False
  end.
Proof.
  cbn [loads]. rewrite fold_loads_members, dict_lookup_fold_assign.
  unfold assigned_last. rewrite <- map_rev, dict_lookup_map.
  now destruct (dict_lookup (rev members) k).
Qed.

Lemma py_get_object (members : list (string * json)) (k : string) (default : pyval) :
  py_get (loads (JObject members)) k default =
  Returns (match assigned_last k members with
           | Some field => loads field
           | None => default
           end).
Proof.
  pose proof (lookup_loads_object members k) as H.
  destruct (loads (JObject members)) as [| | | | | |d] eqn:E; try contradiction.
  unfold py_get. rewrite H. now destruct (assigned_last k members).
Qed.

Lemma assigned_last_None {V} (k : string) (l : list (string * V)) :
  assigned_last k l = None <-> ~ In k (map fst l).
Proof.
  unfold assigned_last. rewrite dict_lookup_None. unfold keys.
  rewrite map_rev, <- in_rev. reflexivity.
Qed.

(** ** The advice relay, case by case *)

Section AdviceFacts.

Context {env : Services}.
Implicit Types (w : World env) (query : string).

Lemma advice_post_raises query w e w' :
  requests_post env endpoint_url (request_payload query) w = (Raises e, w') ->
  ai_financial_advice query w = (Returns (fallback query), w').
Proof.
  intro H. unfold ai_financial_advice, try_except, bind.
  fold endpoint_url. fold (request_payload query). now rewrite H.
Qed.

Lemma advice_not_200 query w response w' :
  requests_post env endpoint_url (request_payload query) w = (Returns response, w') ->
  status_code response <> 200 ->
  ai_financial_advice query w = (Returns (fallback query), w').
Proof.
  intros H Hs. unfold ai_financial_advice, try_except, bind.
  fold endpoint_url. fold (request_payload query). rewrite H.
  apply Z.eqb_neq in Hs. now rewrite Hs.
Qed.

Lemma advice_200 query w response w' :
  requests_post env endpoint_url (request_payload query) w = (Returns response, w') ->
  status_code response = 200 ->
  ai_financial_advice query w =
    (Returns (match body response with
              | Some (JObject members) =>
                  match assigned_last "response" members with
                  | Some field => loads field
                  | None => fallback query
                  end
              | _ => fallback query
              end), w').
Proof.
  intros H Hs. unfold ai_financial_advice, try_except, bind.
  fold endpoint_url. fold (request_payload query). rewrite H.
  apply Z.eqb_eq in Hs. rewrite Hs. unfold lift, Response_json.
  destruct (body response) as [j|]; [|reflexivity].
  destruct j as [| | | | | |members]; try reflexivity.
  fold (fallback query). now rewrite py_get_object.
Qed.

End AdviceFacts.

(** ** Text lines *)

Lemma count_nl_str_mul_zero (n : nat) : count_nl (str_mul "0" n) = O.
Proof. induction n as [|n IH]; simpl; [reflexivity | exact IH]. Qed.

Lemma count_nl_show_Z (z : Z) : count_nl (show_Z z) = O.
Proof.
  unfold show_Z. generalize (N.to_uint (Z.to_N z)). intro d.
  assert (H : count_nl (NilEmpty.string_of_uint d) = O)
    by (induction d; simpl; auto).
  destruct d; simpl in *; auto.
Qed.

Lemma count_nl_fixed_digits (n : Z) : count_nl (fixed_digits 2 n) = O.
Proof.
  unfold fixed_digits, zfill.
  now rewrite !count_nl_append, !count_nl_show_Z, count_nl_str_mul_zero.
Qed.

Lemma count_nl_format_f (always_sign : bool) (x : float) :
  count_nl (format_f always_sign 2 x) = O.
Proof.
  unfold format_f.
  destruct (Prim2SF x) as [s|s| |s m e]; rewrite count_nl_append;
    rewrite ?count_nl_fixed_digits;
    try destruct s; destruct always_sign; reflexivity.
Qed.

Lemma count_nl_summary_line_plain (item : string * entry) :
  count_nl (fst item) = O -> count_nl (summary_line item) = 1%nat.
Proof.
  intro H. unfold summary_line.
  now rewrite !count_nl_append, !count_nl_format_f, H.
Qed.

Lemma count_nl_summary (entries : list (string * entry)) :
  (forall s, In s (keys entries) -> count_nl s = O) ->
  count_nl (header ++ cat (map summary_line entries)) = (2 + List.length entries)%nat.
Proof.
  intro H. rewrite count_nl_append. change (count_nl header) with 2%nat.
  f_equal. induction entries as [|it entries IH]; [reflexivity|].
  cbn [map cat fold_right List.length]. fold (cat (map summary_line entries)).
  rewrite count_nl_append, count_nl_summary_line_plain.
  - rewrite IH; [reflexivity|]. intros s Hs. apply H. now right.
  - apply H. now left.
Qed.

Lemma count_nl_summary_lower (entries : list (string * entry)) :
  (2 + List.length entries <= count_nl (header ++ cat (map summary_line entries)))%nat.
Proof.
  rewrite count_nl_append. change (count_nl header) with 2%nat.
  apply Nat.add_le_mono_l.
  induction entries as [|it entries IH]; [apply Nat.le_0_l|].
  cbn [map cat fold_right List.length]. fold (cat (map summary_line entries)).
  rewrite count_nl_append. pose proof (count_nl_summary_line it). lia.
Qed.

(** ** The log of a run *)

Section LogFacts.

Context {env : Services}.

Lemma fetch_log_symbols (period : string) (fields : list string) :
  forall (w : World env) log w',
    fetch_log period fields w = Some (log, w') ->
    map fst log = map strip fields.
Proof.
  induction fields as [|field fields IH]; intros w log w' H; simpl in H.
  - now injection H as <- <-.
  - destruct (history env (MkTicker (strip field)) period w) as [[data|e] w1];
      [|discriminate].
    destruct (fetch_log period fields w1) as [[log1 w2]|] eqn:Hl; [|discriminate].
    injection H as <- <-. simpl. f_equal. exact (IH _ _ _ Hl).
Qed.

End LogFacts.

Lemma filter_all {A} (p : A -> bool) (l : list A) :
  forallb p l = true -> filter p l = l.
Proof.
  induction l as [|x l IH]; simpl; [reflexivity|].
  intro H. apply andb_prop in H. destruct H as [Hx Hl].
  now rewrite Hx, IH.
Qed.

Lemma length_portfolio_of (log : list (string * DataFrame)) :
  List.length (portfolio_of log) =
  List.length (distinct_symbols (filter nonempty log)).
Proof.
  unfold portfolio_of, distinct_symbols.
  now rewrite length_fold_assign, map_fst_assignments.
Qed.

Lemma In_keys_portfolio_of (log : list (string * DataFrame)) (s : string) :
  In s (keys (portfolio_of log)) <-> In s (map fst (filter nonempty log)).
Proof.
  unfold portfolio_of. rewrite In_keys_fold_assign, map_fst_assignments.
  simpl. intuition.
Qed.

(** ** An input of one field *)

Section SingleField.

Context {env : Services}.

(** The summary of an input without a comma whose series has rows: the
    header, and the line the second loop renders for its one entry. *)
Lemma analyze_single_field (symbols period : string) (w : World env)
    (data : DataFrame) (w1 : World env) (first last : float) :
  split "," symbols = [symbols] ->
  history env (MkTicker (strip symbols)) period w = (Returns data, w1) ->
  first_close data = Some first ->
  last_close data = Some last ->
  analyze_portfolio symbols period w =
    (Returns (render_line header (strip symbols, entry_of first last)), w1).
Proof.
  intros Hs Hh Hf Hl. unfold analyze_portfolio, try_except, bind.
  rewrite Hs. cbn [for_each]. unfold bind.
  rewrite (fetch_symbol_returns _ _ _ _ Hh).
  unfold assignments. simpl flat_map. cbn [snd fst].
  unfold entry_of_series. rewrite Hf, Hl. reflexivity.
Qed.

End SingleField.

Lemma render_line_100_110 (result symbol : string) :
  render_line result (symbol, entry_of 100 110) =
  result ++ symbol ++ ": $110.00 (+10.00, +10.00%)" ++ nl.
Proof.
  rewrite render_line_summary. unfold summary_line.
  cbn [fst snd entry_of current_price change change_pct]. reflexivity.
Qed.

(** * The handlers' contracts *)

Section Contracts.

Context {env : Services}.
Implicit Types (w : World env) (symbol symbols period query : string).

(** C1, as the code has it.  When the POST to the inference endpoint
    raises, or answers with a status other than 200, or answers 200 with
    a body that is not JSON or is a JSON value other than an object (so
    that reading it raises), [ai_financial_advice] returns the text
    "AI Response: " followed by the original query. *)
Theorem advice_failure_returns_prefixed_query query w r w' :
  requests_post env endpoint_url (request_payload query) w = (r, w') ->
  (exists e, r = Raises e)
  \/ (exists response, r = Returns response /\ status_code response <> 200)
  \/ (exists response, r = Returns response /\ status_code response = 200
                       /\ body response = None)
  \/ (exists response doc, r = Returns response /\ status_code response = 200
                           /\ body response = Some doc /\ is_object doc = false) ->
  ai_financial_advice query w = (Returns (PyStr ("AI Response: " ++ query)), w').
Proof.
  intros Hp [[e ->] | [(response & -> & Hs) | [(response & -> & Hs & Hb)
                     | (response & doc & -> & Hs & Hb & Hd)]]].
  - exact (advice_post_raises _ _ Hp).
  - exact (advice_not_200 _ _ Hp Hs).
  - rewrite (advice_200 _ _ Hp Hs), Hb. reflexivity.
  - rewrite (advice_200 _ _ Hp Hs), Hb.
    destruct doc; try reflexivity. discriminate Hd.
Qed.

(** C2.  When the POST answers with status 200 and a JSON object that has
    a member named [response], [ai_financial_advice] returns exactly the
    value of that member (the last one, should the document repeat the
    name). *)
Theorem advice_returns_response_field query w response w' members field :
  requests_post env endpoint_url (request_payload query) w = (Returns response, w') ->
  status_code response = 200 ->
  body response = Some (JObject members) ->
  assigned_last "response" members = Some field ->
  ai_financial_advice query w = (Returns (loads field), w').
Proof.
  intros Hp Hs Hb Hf. now rewrite (advice_200 _ _ Hp Hs), Hb, Hf.
Qed.

(** C3.  A turn of the loop on a series with rows stores an entry whose
    current price is the last close, whose change is the last close minus
    the first close, and whose percent change is that change divided by
    the first close, times 100; for a first close of 100 and a last close
    of 110 the percent change is formatted as "+10.00%", plus sign
    included, and so does the second loop print it: the line it renders
    for the entry ends with "(+10.00, +10.00%)", and the summary of that
    one symbol is the header followed by that line. *)
Theorem percent_change_formula period (pd : dict entry) field w data w1 first last :
  history env (MkTicker (strip field)) period w = (Returns data, w1) ->
  first_close data = Some first ->
  last_close data = Some last ->
  exists e,
    fetch_symbol period pd field w = (Returns (dict_set pd (strip field) e), w1)
    /\ current_price e = last
    /\ change e = (last - first)%float
    /\ change_pct e = (change e / first * 100)%float
    /\ (first = 100%float -> last = 110%float ->
        format_f true 2 (change_pct e) ++ "%" = "+10.00%"
        /\ (forall result,
              render_line result (strip field, e) =
              result ++ strip field ++ ": $110.00 (+10.00, +10.00%)" ++ nl)
        /\ (split "," field = [field] ->
            analyze_portfolio field period w =
              (Returns (header ++ strip field
                          ++ ": $110.00 (+10.00, +10.00%)" ++ nl), w1))).
Proof.
  intros Hh Hf Hl. exists (entry_of first last).
  split; [|split; [reflexivity|split; [reflexivity|split; [reflexivity|]]]].
  - rewrite (fetch_symbol_returns _ _ _ _ Hh).
    unfold assignments. simpl flat_map. cbn [snd fst].
    unfold entry_of_series. rewrite Hf, Hl. reflexivity.
  - intros -> ->. split; [reflexivity|]. split.
    + intro result. apply render_line_100_110.
    + intro Hs. rewrite (analyze_single_field _ _ Hs Hh Hf Hl).
      now rewrite render_line_100_110.
Qed.

(** C4, as the code has it.  When every symbol of the comma-separated
    input resolves to a series with rows, the summary is the header and
    the separator followed by one line
    [{symbol}: ${current_price:.2f} ({change:+.2f}, {change_pct:+.2f}%)]
    for each distinct trimmed symbol of the input: as many lines as
    there are distinct trimmed symbols, which is the number of input
    symbols when no trimmed symbol occurs twice. *)
Theorem summary_has_one_line_per_distinct_symbol symbols period w log w' :
  fetch_log period (split "," symbols) w = Some (log, w') ->
  forallb nonempty log = true ->
  exists entries,
    analyze_portfolio symbols period w =
      (Returns (header ++ cat (map summary_line entries)), w')
    /\ List.length entries =
       List.length (nodup string_dec (map strip (split "," symbols)))
    /\ (NoDup (map strip (split "," symbols)) ->
        List.length entries = List.length (split "," symbols))
    /\ (forall s, In s (keys entries) <-> In s (map strip (split "," symbols)))
    /\ ((forall s, In s (keys entries) -> count_nl s = O) ->
        count_nl (header ++ cat (map summary_line entries))
        = (2 + List.length entries)%nat).
Proof.
  intros Hlog Hall. exists (portfolio_of log).
  pose proof (fetch_log_symbols _ _ _ Hlog) as Hsym.
  assert (Hlen : List.length (portfolio_of log) =
                 List.length (nodup string_dec (map strip (split "," symbols)))).
  { rewrite length_portfolio_of, (filter_all _ _ Hall).
    unfold distinct_symbols. now rewrite Hsym. }
  split; [exact (analyze_portfolio_returns _ _ _ Hlog)|].
  split; [exact Hlen|]. split; [|split].
  - intro Hnd. rewrite Hlen, (nodup_fixed_point string_dec Hnd).
    apply length_map.
  - intro s. rewrite In_keys_portfolio_of, (filter_all _ _ Hall), Hsym.
    reflexivity.
  - apply count_nl_summary.
Qed.

(** C5.  When no fetch raises, the summary is the one of the fetches that
    brought rows: a fetch that brought none adds no entry and no line and
    stops nothing, and a symbol all of whose fetches brought no rows has
    no entry and no line at all. *)
Theorem empty_series_is_skipped symbols period w log w' :
  fetch_log period (split "," symbols) w = Some (log, w') ->
  exists entries,
    analyze_portfolio symbols period w =
      (Returns (header ++ cat (map summary_line entries)), w')
    /\ entries = portfolio_of (filter nonempty log)
    /\ forall s, (forall data, In (s, data) log -> data = []) ->
                 ~ In s (keys entries) /\ dict_lookup entries s = None.
Proof.
  intro Hlog. exists (portfolio_of log).
  split; [exact (analyze_portfolio_returns _ _ _ Hlog)|].
  split.
  - unfold portfolio_of. now rewrite assignments_filter.
  - intros s Hs.
    assert (N : ~ In s (keys (portfolio_of log))).
    { unfold portfolio_of. rewrite In_keys_fold_assign, In_assignments.
      intros [[]|(data & Hin & Hne)]. apply Hne. exact (Hs _ Hin). }
    split; [exact N | now apply dict_lookup_None].
Qed.

(** C6.  When the first loop raises, at whatever turn, [analyze_portfolio]
    returns the one text "Error analyzing portfolio: " followed by the
    message of the exception, and nothing of the entries computed before
    is in it: the exception is the one of a fetch that failed after the
    fetches before it, whatever they brought, had returned. *)
Theorem portfolio_error_discards_partial_results symbols period w e w' :
  for_each (split "," symbols) (fetch_symbol period) [] w = (Raises e, w') ->
  analyze_portfolio symbols period w =
    (Returns ("Error analyzing portfolio: " ++ exc_str e), w')
  /\ exists before field after log w1,
       split "," symbols = (before ++ field :: after)%list
       /\ fetch_log period before w = Some (log, w1)
       /\ history env (MkTicker (strip field)) period w1 = (Raises e, w').
Proof.
  intro H. split.
  - unfold analyze_portfolio, try_except, bind. now rewrite H.
  - exact (loop_raises_inv _ _ _ _ H).
Qed.

(** C7.  When the retrieval of the history raises, [get_stock_data]
    catches the exception and returns the text
    "Error fetching data for {symbol}: {message}", which starts with
    "Error fetching data for" and contains the symbol. *)
Theorem quote_failure_is_reported symbol period w e w' :
  history env (MkTicker symbol) period w = (Raises e, w') ->
  exists text,
    get_stock_data symbol period w = (Returns text, w')
    /\ text = "Error fetching data for " ++ symbol ++ ": " ++ exc_str e
    /\ startswith text "Error fetching data for" = true
    /\ contains text symbol.
Proof.
  intro H. eexists. split; [|split; [reflexivity|split]].
  - unfold get_stock_data, try_except, bind. rewrite H. reflexivity.
  - apply (startswith_append "Error fetching data for"
             (" " ++ symbol ++ ": " ++ exc_str e)).
  - exists "Error fetching data for ", (": " ++ exc_str e). reflexivity.
Qed.

(** C8, as the code has it.  Every handler returns a value in every world
    and for every input, and raises nothing.  [get_stock_data] and
    [analyze_portfolio] return text.  [ai_financial_advice] returns text
    too, unless the endpoint answers 200 with a JSON object whose member
    [response] is not text: it then returns the value of that member as
    it is. *)
Theorem handlers_are_total symbol symbols period query w :
  (exists text w', get_stock_data symbol period w = (Returns text, w'))
  /\ (exists text w', analyze_portfolio symbols period w = (Returns text, w'))
  /\ (exists v w',
        ai_financial_advice query w = (Returns v, w')
        /\ (is_str v = true
            \/ exists response members field,
                 requests_post env endpoint_url (request_payload query) w
                   = (Returns response, w')
                 /\ status_code response = 200
                 /\ body response = Some (JObject members)
                 /\ assigned_last "response" members = Some field
                 /\ v = loads field /\ is_str v = false)).
Proof.
  split; [|split].
  - unfold get_stock_data, try_except, bind.
    destruct (history env (MkTicker symbol) period w) as [[data|e] w1];
      eexists; eexists; reflexivity.
  - unfold analyze_portfolio, try_except, bind.
    destruct (for_each (split "," symbols) (fetch_symbol period) [] w)
      as [[pd|e] w1]; eexists; eexists; reflexivity.
  - destruct (requests_post env endpoint_url (request_payload query) w)
      as [[response|e] w1] eqn:Hp.
    + destruct (Z.eq_dec (status_code response) 200) as [Hs|Hs].
      * eexists; eexists. split; [exact (advice_200 _ _ Hp Hs)|].
        destruct (body response) as [[| | | | | |members]|] eqn:Hb;
          try (left; reflexivity).
        destruct (assigned_last "response" members) as [field|] eqn:Hf;
          [|left; reflexivity].
        destruct (is_str (loads field)) eqn:Ht; [now left|].
        right. exists response, members, field. repeat split; assumption.
      * eexists; eexists. split; [exact (advice_not_200 _ _ Hp Hs)|].
        left; reflexivity.
    + eexists; eexists. split; [exact (advice_post_raises _ _ Hp)|].
      left; reflexivity.
Qed.

(** C9.  In every failure case of the advice relay (the POST raises, the
    status is not 200, or the status is 200 and the JSON object of the
    body has no member [response]) [ai_financial_advice] returns exactly
    "AI Response: " followed by the query: a text that starts with
    "AI Response: " and so differs from every text that does not. *)
Theorem advice_failure_carries_prefix query w r w' :
  requests_post env endpoint_url (request_payload query) w = (r, w') ->
  (exists e, r = Raises e)
  \/ (exists response, r = Returns response /\ status_code response <> 200)
  \/ (exists response members,
        r = Returns response /\ status_code response = 200
        /\ body response = Some (JObject members)
        /\ assigned_last "response" members = None) ->
  exists text,
    ai_financial_advice query w = (Returns (PyStr text), w')
    /\ text = "AI Response: " ++ query
    /\ startswith text "AI Response: " = true
    /\ forall other, startswith other "AI Response: " = false -> other <> text.
Proof.
  intros Hp Hcase. exists ("AI Response: " ++ query).
  split; [|split; [reflexivity|split]].
  - destruct Hcase as [[e ->] | [(response & -> & Hs)
                                | (response & members & -> & Hs & Hb & Hf)]].
    + exact (advice_post_raises _ _ Hp).
    + exact (advice_not_200 _ _ Hp Hs).
    + rewrite (advice_200 _ _ Hp Hs), Hb, Hf. reflexivity.
  - apply startswith_append.
  - intros other Ho ->. rewrite startswith_append in Ho. discriminate.
Qed.

(** C10.  When no fetch raises, the summary has at most one line for a
    symbol, however often the list names it: its lines are those of a
    dictionary without repeated keys, in which a symbol holds the entry
    of its last fetch that brought rows, and their number is the number
    of distinct trimmed symbols whose fetch brought rows. *)
Theorem repeated_symbol_has_one_line symbols period w log w' :
  fetch_log period (split "," symbols) w = Some (log, w') ->
  exists entries,
    analyze_portfolio symbols period w =
      (Returns (header ++ cat (map summary_line entries)), w')
    /\ NoDup (keys entries)
    /\ List.length entries = List.length (distinct_symbols (filter nonempty log))
    /\ (forall s, dict_lookup entries s = assigned_last s (assignments log))
    /\ ((forall s, In s (keys entries) -> count_nl s = O) ->
        count_nl (header ++ cat (map summary_line entries))
        = (2 + List.length (distinct_symbols (filter nonempty log)))%nat).
Proof.
  intro Hlog. exists (portfolio_of log).
  split; [exact (analyze_portfolio_returns _ _ _ Hlog)|].
  split; [|split; [|split]].
  - unfold portfolio_of. apply NoDup_keys_fold_assign. constructor.
  - apply length_portfolio_of.
  - intro s. unfold portfolio_of. rewrite dict_lookup_fold_assign.
    now destruct (assigned_last s (assignments log)).
  - intro H. rewrite <- length_portfolio_of. now apply count_nl_summary.
Qed.

End Contracts.

(** * The contracts at work on the test double *)

(** C1 as stated fails: with the endpoint unreachable the relay does not
    return the query unchanged. *)
Lemma unreachable_endpoint_is_not_echoed :
  ~ (forall e w',
       requests_post Demo.services endpoint_url (request_payload Demo.gold)
         Demo.unreachable = (Raises e, w') ->
       ai_financial_advice (env:=Demo.services) Demo.gold Demo.unreachable
       = (Returns (PyStr Demo.gold), w')).
Proof.
  intro H. specialize (H _ _ eq_refl). vm_compute in H. discriminate H.
Qed.

Lemma advice_failure_returns_prefixed_query_witness :
  ai_financial_advice (env:=Demo.services) Demo.gold Demo.unreachable
  = (Returns (PyStr "AI Response: Should I buy gold?"), Demo.tick Demo.unreachable)
  /\ ai_financial_advice (env:=Demo.services) Demo.gold (Demo.answering 500 None)
     = (Returns (PyStr "AI Response: Should I buy gold?"),
        Demo.tick (Demo.answering 500 None))
  /\ ai_financial_advice (env:=Demo.services) Demo.gold (Demo.answering 200 None)
     = (Returns (PyStr "AI Response: Should I buy gold?"),
        Demo.tick (Demo.answering 200 None)).
Proof.
  split; [|split].
  - apply (@advice_failure_returns_prefixed_query Demo.services Demo.gold
             Demo.unreachable _ _ eq_refl).
    left. eexists. reflexivity.
  - apply (@advice_failure_returns_prefixed_query Demo.services Demo.gold
             (Demo.answering 500 None) _ _ eq_refl).
    right. left. eexists. split; [reflexivity | discriminate].
  - apply (@advice_failure_returns_prefixed_query Demo.services Demo.gold
             (Demo.answering 200 None) _ _ eq_refl).
    right. right. left. eexists. split; [reflexivity | split; reflexivity].
Defined.

Lemma advice_returns_response_field_witness :
  ai_financial_advice (env:=Demo.services) Demo.gold
    (Demo.answering 200 (Some Demo.diversify))
  = (Returns (PyStr "Diversify your holdings."),
     Demo.tick (Demo.answering 200 (Some Demo.diversify))).
Proof.
  apply (@advice_returns_response_field Demo.services Demo.gold
           (Demo.answering 200 (Some Demo.diversify))
           (MkResponse 200 (Some Demo.diversify)) _
           [("response", JString "Diversify your holdings.")]
           (JString "Diversify your holdings."));
    reflexivity.
Defined.

Lemma percent_change_formula_witness :
  exists e,
    fetch_symbol (env:=Demo.services) "1mo" [] " AAPL" Demo.unreachable
    = (Returns [("AAPL", e)], Demo.tick Demo.unreachable)
    /\ change e = 10%float
    /\ change_pct e = 10%float
    /\ format_f true 2 (change_pct e) ++ "%" = "+10.00%"
    /\ render_line header ("AAPL", e)
       = header ++ "AAPL: $110.00 (+10.00, +10.00%)" ++ nl
    /\ analyze_portfolio (env:=Demo.services) " AAPL" "1mo" Demo.unreachable
       = (Returns (header ++ "AAPL: $110.00 (+10.00, +10.00%)" ++ nl),
          Demo.tick Demo.unreachable).
Proof.
  destruct (@percent_change_formula Demo.services "1mo" [] " AAPL"
              Demo.unreachable (Demo.closes [100; 104; 110]%float)
              (Demo.tick Demo.unreachable) 100%float 110%float
              eq_refl eq_refl eq_refl)
    as (e & Hturn & _ & Hchange & Hpct & Hshow).
  destruct (Hshow eq_refl eq_refl) as (Hfmt & Hline & Hsummary).
  exists e. split; [exact Hturn|]. split; [exact Hchange|].
  split; [rewrite Hpct, Hchange; reflexivity|].
  split; [exact Hfmt|]. split; [exact (Hline header) | exact (Hsummary eq_refl)].
Defined.

(** C4 as stated fails: both symbols of "AAPL,AAPL" resolve to a series
    with rows, and the summary has not two lines for them. *)
Lemma repeated_symbol_breaks_the_line_count :
  exists log w',
    fetch_log (env:=Demo.services) "1mo" (split "," "AAPL,AAPL") Demo.unreachable
    = Some (log, w')
    /\ forallb nonempty log = true
    /\ List.length (split "," "AAPL,AAPL") = 2%nat
    /\ fst (analyze_portfolio (env:=Demo.services) "AAPL,AAPL" "1mo" Demo.unreachable)
       = Returns (header ++ "AAPL: $120.00 (+20.00, +20.00%)" ++ nl)
    /\ ~ exists entries,
          analyze_portfolio (env:=Demo.services) "AAPL,AAPL" "1mo" Demo.unreachable
          = (Returns (header ++ cat (map summary_line entries)), w')
          /\ List.length entries = List.length (split "," "AAPL,AAPL").
Proof.
  eexists. eexists. split; [reflexivity|]. split; [reflexivity|].
  split; [reflexivity|]. split; [reflexivity|].
  intros (entries & H & Hlen).
  assert (E : forall text w0,
             analyze_portfolio (env:=Demo.services) "AAPL,AAPL" "1mo"
               Demo.unreachable = (Returns text, w0) ->
             count_nl text = 3%nat).
  { intros text w0 Ht. vm_compute in Ht. injection Ht as <- _. reflexivity. }
  pose proof (count_nl_summary_lower entries) as L.
  rewrite (E _ _ H) in L.
  change (List.length (split "," "AAPL,AAPL")) with 2%nat in Hlen.
  lia.
Qed.

Lemma summary_has_one_line_per_distinct_symbol_witness :
  exists entries,
    analyze_portfolio (env:=Demo.services) "AAPL, TSLA" "1mo" Demo.unreachable
    = (Returns (header ++ cat (map summary_line entries)),
       Demo.tick (Demo.tick Demo.unreachable))
    /\ List.length entries = 2%nat
    /\ (In "TSLA" (keys entries) <-> In "TSLA" ["AAPL"; "TSLA"]).
Proof.
  destruct (@summary_has_one_line_per_distinct_symbol Demo.services
              "AAPL, TSLA" "1mo" Demo.unreachable
              [("AAPL", Demo.closes [100; 104; 110]%float);
               ("TSLA", Demo.closes [200; 150]%float)]
              (Demo.tick (Demo.tick Demo.unreachable)) eq_refl eq_refl)
    as (entries & Hout & Hlen & _ & Hkeys & _).
  exists entries. split; [exact Hout|]. split; [exact Hlen | exact (Hkeys "TSLA")].
Defined.

Lemma empty_series_is_skipped_witness :
  exists entries,
    analyze_portfolio (env:=Demo.services) "AAPL,GONE" "1mo" Demo.unreachable
    = (Returns (header ++ cat (map summary_line entries)),
       Demo.tick (Demo.tick Demo.unreachable))
    /\ entries = [("AAPL", entry_of 100 110)]
    /\ ~ In "GONE" (keys entries).
Proof.
  destruct (@empty_series_is_skipped Demo.services "AAPL,GONE" "1mo"
              Demo.unreachable
              [("AAPL", Demo.closes [100; 104; 110]%float); ("GONE", [])]
              (Demo.tick (Demo.tick Demo.unreachable)) eq_refl)
    as (entries & Hout & Hentries & Hskip).
  exists entries. split; [exact Hout|]. split; [exact Hentries|].
  apply (Hskip "GONE").
  intros data [H|[H|[]]]; [discriminate H | now injection H].
Defined.

Lemma portfolio_error_discards_partial_results_witness :
  for_each (env:=Demo.services) (split "," "AAPL,DOWN,TSLA")
    (fetch_symbol "1mo") [] Demo.unreachable
  = (Raises (Exn "ConnectionError" "network down"),
     Demo.tick (Demo.tick Demo.unreachable))
  /\ analyze_portfolio (env:=Demo.services) "AAPL,DOWN,TSLA" "1mo" Demo.unreachable
     = (Returns "Error analyzing portfolio: network down",
        Demo.tick (Demo.tick Demo.unreachable)).
Proof.
  split; [reflexivity|].
  apply (@portfolio_error_discards_partial_results Demo.services
           "AAPL,DOWN,TSLA" "1mo" Demo.unreachable
           (Exn "ConnectionError" "network down")
           (Demo.tick (Demo.tick Demo.unreachable))).
  reflexivity.
Defined.

Lemma quote_failure_is_reported_witness :
  exists text,
    get_stock_data (env:=Demo.services) "DOWN" "1mo" Demo.unreachable
    = (Returns text, Demo.tick Demo.unreachable)
    /\ text = "Error fetching data for DOWN: network down"
    /\ startswith text "Error fetching data for" = true
    /\ contains text "DOWN".
Proof.
  apply (@quote_failure_is_reported Demo.services "DOWN" "1mo" Demo.unreachable
           (Exn "ConnectionError" "network down") (Demo.tick Demo.unreachable)).
  reflexivity.
Defined.

(** C8 as stated fails: when the endpoint answers 200 with
    [{"response": 42}] the advice relay returns the number, not text. *)
Lemma advice_can_return_a_number :
  fst (ai_financial_advice (env:=Demo.services) Demo.gold
         (Demo.answering 200 (Some Demo.forty_two)))
  = Returns (PyInt 42)
  /\ ~ exists text w',
        ai_financial_advice (env:=Demo.services) Demo.gold
          (Demo.answering 200 (Some Demo.forty_two))
        = (Returns (PyStr text), w').
Proof.
  split; [reflexivity|].
  intros (text & w' & H). vm_compute in H. discriminate H.
Qed.

Lemma advice_failure_carries_prefix_witness :
  (exists text,
     ai_financial_advice (env:=Demo.services) Demo.gold Demo.unreachable
     = (Returns (PyStr text), Demo.tick Demo.unreachable)
     /\ text = "AI Response: Should I buy gold?"
     /\ startswith text "AI Response: " = true
     /\ forall other, startswith other "AI Response: " = false -> other <> text)
  /\ (exists text,
        ai_financial_advice (env:=Demo.services) Demo.gold (Demo.answering 500 None)
        = (Returns (PyStr text), Demo.tick (Demo.answering 500 None))
        /\ text = "AI Response: Should I buy gold?"
        /\ startswith text "AI Response: " = true
        /\ forall other, startswith other "AI Response: " = false -> other <> text)
  /\ (exists text,
        ai_financial_advice (env:=Demo.services) Demo.gold
          (Demo.answering 200 (Some Demo.no_answer))
        = (Returns (PyStr text), Demo.tick (Demo.answering 200 (Some Demo.no_answer)))
        /\ text = "AI Response: Should I buy gold?"
        /\ startswith text "AI Response: " = true
        /\ forall other, startswith other "AI Response: " = false -> other <> text).
Proof.
  split; [|split].
  - apply (@advice_failure_carries_prefix Demo.services Demo.gold
             Demo.unreachable _ _ eq_refl).
    left. eexists. reflexivity.
  - apply (@advice_failure_carries_prefix Demo.services Demo.gold
             (Demo.answering 500 None) _ _ eq_refl).
    right. left. eexists. split; [reflexivity | discriminate].
  - apply (@advice_failure_carries_prefix Demo.services Demo.gold
             (Demo.answering 200 (Some Demo.no_answer)) _ _ eq_refl).
    right. right. eexists. eexists.
    split; [reflexivity|]. split; [reflexivity|]. split; reflexivity.
Defined.

Lemma repeated_symbol_has_one_line_witness :
  exists entries,
    analyze_portfolio (env:=Demo.services) "TSLA,AAPL,GONE, AAPL" "1mo"
      Demo.unreachable
    = (Returns (header ++ cat (map summary_line entries)),
       Demo.tick (Demo.tick (Demo.tick (Demo.tick Demo.unreachable))))
    /\ NoDup (keys entries)
    /\ List.length entries = 2%nat
    /\ dict_lookup entries "AAPL" = Some (entry_of 100 120).
Proof.
  destruct (@repeated_symbol_has_one_line Demo.services
              "TSLA,AAPL,GONE, AAPL" "1mo" Demo.unreachable
              [("TSLA", Demo.closes [200; 150]%float);
               ("AAPL", Demo.closes [100; 120]%float);
               ("GONE", []);
               ("AAPL", Demo.closes [100; 120]%float)]
              (Demo.tick (Demo.tick (Demo.tick (Demo.tick Demo.unreachable))))
              eq_refl)
    as (entries & Hout & Hnd & Hlen & Hlast & _).
  exists entries. split; [exact Hout|]. split; [exact Hnd|].
  split; [exact Hlen | exact (Hlast "AAPL")].
Defined.

(** * Further properties of the handlers *)

(** ** Splitting and trimming *)

Lemma join_cons (sep : ascii) (field : string) (rest : list string) :
  rest <> [] -> join sep (field :: rest) = field ++ String sep (join sep rest).
Proof. destruct rest; [intro H; now elim H | reflexivity]. Qed.


Lemma split_fields_without_sep (sep : ascii) (s : string) :
  Forall (fun field => count_char sep field = O) (split sep s).
Proof.
  induction s as [|c s IH]; [repeat constructor|].
  cbn [split]. destruct (Ascii.eqb c sep) eqn:E.
  - constructor; [reflexivity | exact IH].
  - destruct (split sep s) as [|field fields].
    + constructor; [|constructor]. cbn [count_char]. now rewrite E.
    + inversion IH as [|? ? Hf Hfs]; subst.
      constructor; [|exact Hfs]. cbn [count_char]. now rewrite E.
Qed.

Lemma count_char_lstrip (c : ascii) (s : string) :
  (count_char c (lstrip s) <= count_char c s)%nat.
Proof.
  induction s as [|x s IH]; [apply Nat.le_refl|].
  cbn [lstrip]. destruct (isspace x); [|apply Nat.le_refl].
  cbn [count_char]. lia.
Qed.

Lemma count_char_rstrip (c : ascii) (s : string) :
  (count_char c (rstrip s) <= count_char c s)%nat.
Proof.
  induction s as [|x s IH]; [apply Nat.le_refl|].
  cbn [rstrip]. destruct (rstrip s) as [|k kept].
  - destruct (isspace x); cbn [count_char]; lia.
  - cbn [count_char] in *. lia.
Qed.

Lemma count_char_strip (c : ascii) (s : string) :
  (count_char c (strip s) <= count_char c s)%nat.
Proof.
  unfold strip. pose proof (count_char_rstrip c (lstrip s)).
  pose proof (count_char_lstrip c s). lia.
Qed.

Lemma lstrip_head (s : string) :
  match lstrip s with
  | EmptyString => True
  | String c _ => isspace c = false
  end.
Proof.
  induction s as [|x s IH]; [exact I|].
  cbn [lstrip]. destruct (isspace x) eqn:E; [exact IH | exact E].
Qed.

Lemma rstrip_cons (c : ascii) (s : string) :
  isspace c = false -> rstrip (String c s) = String c (rstrip s).
Proof.
  intro H. cbn [rstrip]. destruct (rstrip s); [now rewrite H | reflexivity].
Qed.

Lemma last_char_cons (c : ascii) (s : string) :
  exists z, last_char (String c s) = Some z.
Proof.
  cbn [last_char]. destruct (last_char s) as [z|]; eexists; reflexivity.
Qed.

Lemma rstrip_last (s : string) (z : ascii) :
  last_char (rstrip s) = Some z -> isspace z = false.
Proof.
  revert z. induction s as [|x s IH]; intros z H; [discriminate H|].
  cbn [rstrip] in H. destruct (rstrip s) as [|k kept] eqn:E.
  - destruct (isspace x) eqn:Ex; [discriminate H|].
    cbn in H. now injection H as <-.
  - cbn [last_char] in H. cbn [last_char] in IH.
    destruct (last_char kept) as [y|] eqn:Ek.
    + injection H as <-. now apply IH.
    + injection H as <-. now apply IH.
Qed.

Lemma rstrip_fixed (s : string) :
  (forall z, last_char s = Some z -> isspace z = false) -> rstrip s = s.
Proof.
  induction s as [|x s IH]; intro H; [reflexivity|].
  cbn [rstrip]. destruct s as [|y s].
  - cbn. now rewrite (H x eq_refl).
  - rewrite IH.
    + reflexivity.
    + intros z Hz. apply H. cbn [last_char] in *. now rewrite Hz.
Qed.

Lemma lstrip_fixed (s : string) :
  match first_char s with
  | Some c => isspace c = false
  | None => True
  end -> lstrip s = s.
Proof. destruct s as [|c s]; [reflexivity|]. cbn. now intros ->. Qed.

Lemma strip_trimmed (s : string) : trimmed (strip s).
Proof.
  unfold strip, trimmed. pose proof (lstrip_head s) as H.
  destruct (lstrip s) as [|c t]; [reflexivity|].
  rewrite rstrip_cons by exact H. cbn [first_char].
  destruct (last_char_cons c (rstrip t)) as [z Hz]. rewrite Hz.
  split; [exact H|]. rewrite <- rstrip_cons in Hz by exact H.
  now apply rstrip_last in Hz.
Qed.

Lemma strip_fixed (s : string) : trimmed s -> strip s = s.
Proof.
  unfold trimmed, strip. destruct s as [|c s]; [reflexivity|].
  cbn [first_char]. destruct (last_char_cons c s) as [z Hz]. rewrite Hz.
  intros [Hc Hlast]. rewrite lstrip_fixed by exact Hc.
  apply rstrip_fixed. intros y Hy. congruence.
Qed.

(** X14.  Splitting at a separator loses nothing: the fields, joined by
    the separator, are the text that was split. *)
Theorem join_split (sep : ascii) (s : string) : join sep (split sep s) = s.
Proof.
  induction s as [|c s IH]; [reflexivity|].
  cbn [split]. destruct (Ascii.eqb_spec c sep) as [->|N].
  - rewrite join_cons by apply split_not_nil. now rewrite IH.
  - destruct (split sep s) as [|field fields] eqn:E.
    + now elim (split_not_nil sep s).
    + destruct fields as [|f2 fields].
      * cbn in *. now rewrite IH.
      * rewrite join_cons by discriminate.
        rewrite join_cons in IH by discriminate.
        cbn [append]. now rewrite IH.
Qed.

(** ** The order of the keys of a dictionary *)

Lemma filter_fresh_remove (ks : list string) (k : string) (l : list string) :
  fresh ks k = false ->
  filter (fresh ks) (remove string_dec k l) = filter (fresh ks) l.
Proof.
  intro H. induction l as [|x l IH]; [reflexivity|].
  cbn [remove filter]. destruct (string_dec k x) as [<-|N].
  - now rewrite H.
  - cbn [filter]. now rewrite IH.
Qed.

Lemma filter_fresh_snoc (ks : list string) (k : string) (l : list string) :
  filter (fresh (ks ++ [k])) l = filter (fresh ks) (remove string_dec k l).
Proof.
  induction l as [|x l IH]; [reflexivity|].
  cbn [remove filter]. destruct (string_dec k x) as [<-|N].
  - rewrite <- IH. unfold fresh at 1.
    destruct (in_dec string_dec k (ks ++ [k])) as [_|Hn]; [reflexivity|].
    elim Hn. apply in_or_app. right. now left.
  - cbn [filter]. rewrite IH.
    replace (fresh (ks ++ [k]) x) with (fresh ks x); [reflexivity|].
    unfold fresh.
    destruct (in_dec string_dec x ks) as [Hi|Hi];
      destruct (in_dec string_dec x (ks ++ [k])) as [Hj|Hj]; try reflexivity.
    + elim Hj. apply in_or_app. now left.
    + apply in_app_or in Hj. destruct Hj as [Hj|[Hj|[]]]; [now elim Hi | now elim N].
Qed.

Lemma filter_fresh_nil (l : list string) : filter (fresh []) l = l.
Proof. induction l as [|x l IH]; [reflexivity|]. cbn. now rewrite IH. Qed.

Lemma keys_fold_assign_order {V} (l : list (string * V)) :
  forall d : dict V,
    keys (fold_left assign l d) =
    (keys d ++ filter (fresh (keys d)) (first_occurrences (map fst l)))%list.
Proof.
  induction l as [|[k v] l IH]; intro d.
  - cbn. now rewrite app_nil_r.
  - cbn [fold_left map fst first_occurrences]. rewrite IH.
    unfold assign at 1 2. cbn [fst snd].
    destruct (in_dec string_dec k (keys d)) as [Hi|Hn].
    + rewrite keys_dict_set_old by exact Hi. f_equal.
      assert (F : fresh (keys d) k = false).
      { unfold fresh. destruct (in_dec string_dec k (keys d)); [reflexivity|contradiction]. }
      cbn [filter]. rewrite F. now rewrite filter_fresh_remove.
    + rewrite keys_dict_set_new by exact Hn.
      assert (F : fresh (keys d) k = true).
      { unfold fresh. destruct (in_dec string_dec k (keys d)); [contradiction|reflexivity]. }
      cbn [filter]. rewrite F, <- app_assoc. cbn [app].
      now rewrite filter_fresh_snoc.
Qed.

Lemma keys_portfolio_of (log : list (string * DataFrame)) :
  keys (portfolio_of log) = first_occurrences (map fst (filter nonempty log)).
Proof.
  unfold portfolio_of. rewrite keys_fold_assign_order, map_fst_assignments.
  cbn [keys map app]. apply filter_fresh_nil.
Qed.

Lemma assignments_all_empty (log : list (string * DataFrame)) :
  forallb (fun fetch => empty (snd fetch)) log = true -> assignments log = [].
Proof.
  induction log as [|[s data] log IH]; [reflexivity|].
  cbn [forallb snd]. intro H. apply andb_prop in H. destruct H as [He Hl].
  destruct data; [|discriminate He]. exact (IH Hl).
Qed.

Section SummaryFacts.

Context {env : Services}.
Implicit Types (w : World env) (symbols period : string).

Lemma fetch_symbol_strip period (pd : dict entry) (f1 f2 : string) w :
  strip f1 = strip f2 ->
  fetch_symbol period pd f1 w = fetch_symbol period pd f2 w.
Proof. intro H. unfold fetch_symbol. now rewrite H. Qed.

Lemma for_each_strip period (l1 : list string) :
  forall (l2 : list string) (pd : dict entry) w,
    map strip l1 = map strip l2 ->
    for_each l1 (fetch_symbol period) pd w = for_each l2 (fetch_symbol period) pd w.
Proof.
  induction l1 as [|f1 l1 IH]; intros [|f2 l2] pd w H; try discriminate H.
  - reflexivity.
  - cbn [map] in H. injection H as Hf Hl. cbn [for_each]. unfold bind.
    rewrite (fetch_symbol_strip period pd f1 f2 w Hf).
    destruct (fetch_symbol period pd f2 w) as [[pd'|e] w1]; [|reflexivity].
    now apply IH.
Qed.

Lemma length_fetch_log period (fields : list string) w log w' :
  fetch_log period fields w = Some (log, w') ->
  List.length log = List.length fields.
Proof.
  intro H. apply fetch_log_symbols in H.
  apply (f_equal (@List.length string)) in H. now rewrite !length_map in H.
Qed.

Lemma In_firstn {A} (n : nat) (l : list A) (x : A) :
  In x (firstn n l) -> In x l.
Proof.
  intro H. rewrite <- (firstn_skipn n l). apply in_or_app. now left.
Qed.

(** A turn of the loop under [traced]: the same outcome and world, and
    one more request on record, for the trimmed field. *)
Lemma traced_fetch_symbol period (pd : dict entry) (field : string) w
    (requested : list (string * string)) :
  fetch_symbol (env:=traced env) period pd field (w, requested) =
  (fst (fetch_symbol (env:=env) period pd field w),
   (snd (fetch_symbol (env:=env) period pd field w),
    (requested ++ [(strip field, period)])%list)).
Proof.
  unfold fetch_symbol, bind. cbn [history traced fst snd ticker_symbol].
  destruct (history env (MkTicker (strip field)) period w) as [[data|e] w1];
    [|reflexivity].
  destruct data as [|b data]; [reflexivity|].
  cbn [empty negb]. unfold lift.
  now destruct (portfolio_entry (b :: data)).
Qed.

Lemma traced_loop period (fields : list string) :
  forall (pd : dict entry) w (requested : list (string * string)),
    exists n,
      (n <= List.length fields)%nat
      /\ (fields <> [] -> 1 <= n)%nat
      /\ for_each (env:=traced env) fields (fetch_symbol period) pd (w, requested)
         = (fst (for_each (env:=env) fields (fetch_symbol period) pd w),
            (snd (for_each (env:=env) fields (fetch_symbol period) pd w),
             (requested ++ map (fun field => (strip field, period))
                             (firstn n fields))%list))
      /\ (forall pd',
            fst (for_each (env:=env) fields (fetch_symbol period) pd w)
            = Returns pd' -> n = List.length fields).
Proof.
  induction fields as [|field fields IH]; intros pd w requested.
  - exists O. cbn. rewrite app_nil_r. repeat split; auto. intro H. now elim H.
  - cbn [for_each]. unfold bind. rewrite traced_fetch_symbol.
    destruct (fetch_symbol (env:=env) period pd field w) as [[pd1|e] w1];
      cbn [fst snd].
    + destruct (IH pd1 w1 (requested ++ [(strip field, period)])%list)
        as (n & Hle & _ & Heq & Hret).
      exists (S n). rewrite Heq. cbn [firstn map List.length].
      rewrite <- app_assoc. cbn [app].
      split; [lia|]. split; [lia|]. split; [reflexivity|].
      intros pd' H. now rewrite (Hret pd' H).
    + exists 1%nat. cbn [firstn map List.length].
      split; [lia|]. split; [lia|]. split; [reflexivity|].
      intros pd' H. discriminate H.
Qed.

Lemma traced_analyze_portfolio symbols period w :
  exists text w' n,
    analyze_portfolio (env:=env) symbols period w = (Returns text, w')
    /\ analyze_portfolio (env:=traced env) symbols period (w, [])
       = (Returns text,
          (w', map (fun field => (strip field, period))
                 (firstn n (split "," symbols))))
    /\ (1 <= n <= List.length (split "," symbols))%nat
    /\ (startswith text "Error analyzing portfolio: " = false ->
        n = List.length (split "," symbols)).
Proof.
  destruct (traced_loop period (split "," symbols) [] w [])
    as (n & Hle & Hne & Heq & Hret).
  specialize (Hne (@split_not_nil "," symbols)).
  unfold analyze_portfolio, try_except, bind. rewrite Heq.
  destruct (for_each (env:=env) (split "," symbols) (fetch_symbol period) [] w)
    as [[pd|e] w1]; cbn [fst snd app] in *.
  - exists (fold_left render_line (items pd)
              (("Portfolio Analysis:" ++ nl) ++ str_mul "=" 50 ++ nl)), w1, n.
    split; [reflexivity|]. split; [reflexivity|]. split; [lia|].
    intros _. exact (Hret pd eq_refl).
  - exists ("Error analyzing portfolio: " ++ exc_str e), w1, n.
    split; [reflexivity|]. split; [reflexivity|]. split; [lia|].
    intro H. rewrite startswith_append in H. discriminate H.
Qed.

(** X5.  When no fetch raises, the lines of the summary follow the order
    in which the symbols first brought rows: a symbol named again later
    stays where it first appeared. *)
Theorem summary_lines_follow_first_occurrence symbols period w log w' :
  fetch_log period (split "," symbols) w = Some (log, w') ->
  exists entries,
    analyze_portfolio symbols period w =
      (Returns (header ++ cat (map summary_line entries)), w')
    /\ keys entries = first_occurrences (map fst (filter nonempty log)).
Proof.
  intro H. exists (portfolio_of log).
  split; [exact (analyze_portfolio_returns _ _ _ H) | apply keys_portfolio_of].
Qed.

(** X6.  Whitespace around the symbols does not matter: two inputs whose
    fields are the same once trimmed give the same result and leave the
    same world. *)
Theorem summary_ignores_surrounding_whitespace symbols1 symbols2 period w :
  map strip (split "," symbols1) = map strip (split "," symbols2) ->
  analyze_portfolio symbols1 period w = analyze_portfolio symbols2 period w.
Proof.
  intro H. unfold analyze_portfolio, try_except, bind.
  now rewrite (for_each_strip period _ _ [] w H).
Qed.


(** X8.  Whatever the input and whatever the source answers, every
    history [analyze_portfolio] requests is for the given period and for
    a symbol that contains no comma and neither begins nor ends with
    whitespace. *)
Theorem fetched_symbols_are_clean symbols period w text w' requested :
  analyze_portfolio (env:=traced env) symbols period (w, [])
  = (Returns text, (w', requested)) ->
  forall symbol p, In (symbol, p) requested ->
    p = period /\ count_char "," symbol = O
    /\ trimmed symbol /\ strip symbol = symbol.
Proof.
  intros Hrun symbol p Hin.
  destruct (traced_analyze_portfolio symbols period w)
    as (text0 & w0 & n & _ & Htraced & _ & _).
  rewrite Htraced in Hrun. injection Hrun as _ _ <-.
  apply in_map_iff in Hin. destruct Hin as (field & E & Hf).
  injection E as <- <-. apply In_firstn in Hf.
  split; [reflexivity|]. split; [|split].
  - pose proof (split_fields_without_sep "," symbols) as Hall.
    rewrite Forall_forall in Hall. specialize (Hall _ Hf).
    pose proof (count_char_strip "," field). lia.
  - apply strip_trimmed.
  - apply strip_fixed, strip_trimmed.
Qed.

(** X9.  When every fetch returns a frame without rows (as for an input
    that names no known symbol) the summary is the header and the
    separator alone, and no error is reported. *)
Theorem summary_without_data_is_the_header symbols period w log w' :
  fetch_log period (split "," symbols) w = Some (log, w') ->
  forallb (fun fetch => empty (snd fetch)) log = true ->
  analyze_portfolio symbols period w = (Returns header, w').
Proof.
  intros H He. rewrite (analyze_portfolio_returns _ _ _ H).
  unfold portfolio_of. rewrite (assignments_all_empty _ He).
  cbn [fold_left map]. unfold cat. cbn [fold_right]. now rewrite append_nil_r.
Qed.

(** X4.  The text of the summarizer tells success from failure: it starts
    with "Error analyzing portfolio: " exactly when the loop raised, and
    with "Portfolio Analysis:" exactly when it did not. *)
Theorem summary_prefix_tells_failure symbols period w :
  exists text w',
    analyze_portfolio symbols period w = (Returns text, w')
    /\ (startswith text "Error analyzing portfolio: " = true <->
        exists e, for_each (split "," symbols) (fetch_symbol period) [] w
                  = (Raises e, w'))
    /\ (startswith text "Portfolio Analysis:" = true <->
        exists pd, for_each (split "," symbols) (fetch_symbol period) [] w
                   = (Returns pd, w')).
Proof.
  unfold analyze_portfolio, try_except, bind.
  destruct (for_each (split "," symbols) (fetch_symbol period) [] w)
    as [[pd|e] w1].
  - eexists. eexists. split; [reflexivity|]. unfold items.
    rewrite fold_render_line. split; split.
    + intro H. discriminate H.
    + intros [e H]. discriminate H.
    + intros _. now exists pd.
    + intros _. reflexivity.
  - eexists. eexists. split; [reflexivity|]. split; split.
    + intros _. now exists e.
    + intros _. apply startswith_append.
    + intro H. discriminate H.
    + intros [pd H]. discriminate H.
Qed.

End SummaryFacts.

(** ** The quote fetcher and the advice relay *)

Lemma tail_suffix (data : DataFrame) :
  exists older,
    data = (older ++ tail data)%list
    /\ List.length (tail data) = Nat.min 5 (List.length data).
Proof.
  exists (firstn (List.length data - 5) data). unfold tail. split.
  - symmetry. apply firstn_skipn.
  - rewrite length_skipn. lia.
Qed.

Section CallFacts.

Context {env : Services}.
Implicit Types (w : World env) (symbol period query : string).

(** X1.  When the history is retrieved, [get_stock_data] returns
    "Stock data for {symbol}:", a newline, and the rendering of the last
    five rows of the frame, or of all its rows when it has fewer; a frame
    without rows is rendered like any other and is no error. *)
Theorem quote_success_shows_last_rows symbol period w data w' :
  history env (MkTicker symbol) period w = (Returns data, w') ->
  exists older rows,
    get_stock_data symbol period w =
      (Returns ("Stock data for " ++ symbol ++ ":" ++ nl ++ to_string env rows), w')
    /\ data = (older ++ rows)%list
    /\ List.length rows = Nat.min 5 (List.length data).
Proof.
  intro H. destruct (tail_suffix data) as (older & Hd & Hl).
  exists older, (tail data). split; [|split; assumption].
  unfold get_stock_data, try_except, bind. now rewrite H.
Qed.

(** X3.  The text of the quote fetcher tells success from failure: it
    starts with "Error fetching data for " exactly when the retrieval
    raised, and with "Stock data for " exactly when it did not. *)
Theorem quote_prefix_tells_failure symbol period w :
  exists text w',
    get_stock_data symbol period w = (Returns text, w')
    /\ (startswith text "Error fetching data for " = true <->
        exists e, history env (MkTicker symbol) period w = (Raises e, w'))
    /\ (startswith text "Stock data for " = true <->
        exists data, history env (MkTicker symbol) period w = (Returns data, w')).
Proof.
  unfold get_stock_data, try_except, bind.
  destruct (history env (MkTicker symbol) period w) as [[data|e] w1].
  - eexists. eexists. split; [reflexivity|]. split; split.
    + intro H. discriminate H.
    + intros [e H]. discriminate H.
    + intros _. now exists data.
    + intros _. apply startswith_append.
  - eexists. eexists. split; [reflexivity|]. split; split.
    + intros _. now exists e.
    + intros _. apply startswith_append.
    + intro H. discriminate H.
    + intros [data H]. discriminate H.
Qed.

(** X10.  The quote fetcher and the advice relay call their service once
    and never again, whatever it does: the world they leave is the world
    right after that one call. *)
Theorem one_call_and_no_retry symbol period query w :
  snd (get_stock_data symbol period w)
  = snd (history env (MkTicker symbol) period w)
  /\ snd (ai_financial_advice query w)
     = snd (requests_post env endpoint_url (request_payload query) w).
Proof.
  split.
  - unfold get_stock_data, try_except, bind.
    now destruct (history env (MkTicker symbol) period w) as [[data|e] w1].
  - destruct (requests_post env endpoint_url (request_payload query) w)
      as [[response|e] w1] eqn:Hp.
    + destruct (Z.eq_dec (status_code response) 200) as [Hs|Hs].
      * now rewrite (advice_200 _ _ Hp Hs).
      * now rewrite (advice_not_200 _ _ Hp Hs).
    + now rewrite (advice_post_raises _ _ Hp).
Qed.

(** X2.  The advice relay gives no sign of failure: an endpoint that
    answers 200 with the member [response] set to "AI Response: "
    followed by the query is answered for exactly as a failed request
    is. *)
Theorem advice_failure_looks_like_an_answer query w1 e w1' w2 response w2' :
  requests_post env endpoint_url (request_payload query) w1 = (Raises e, w1') ->
  requests_post env endpoint_url (request_payload query) w2
    = (Returns response, w2') ->
  status_code response = 200 ->
  body response
    = Some (JObject [("response", JString ("AI Response: " ++ query))]) ->
  fst (ai_financial_advice query w1) = fst (ai_financial_advice query w2).
Proof.
  intros H1 H2 Hs Hb.
  now rewrite (advice_post_raises _ _ H1), (advice_200 _ _ H2 Hs), Hb.
Qed.

End CallFacts.

(** ** The arithmetic of an entry *)

Lemma first_close_None (data : DataFrame) : first_close data = None -> data = [].
Proof. destruct data; [reflexivity | discriminate]. Qed.

Lemma closes_of_nonempty (data : DataFrame) (first : float) :
  first_close data = Some first -> exists last, last_close data = Some last.
Proof.
  intro H. destruct data as [|b data]; [discriminate H|].
  destruct (@entry_of_series_nonempty (b :: data)) as (x & y & _ & Hy & _);
    [discriminate | now exists y].
Qed.

Lemma SF64sub_same (s : bool) (m : positive) (e : Z) :
  SF64sub (S754_finite s m e) (S754_finite s m e) = S754_zero false.
Proof. unfold SF64sub, SFsub. now rewrite Z.sub_diag. Qed.

Lemma positive_number (x : float) :
  finite x = true -> (0 <? x)%float = true ->
  exists m e, Prim2SF x = S754_finite false m e.
Proof.
  unfold finite. rewrite ltb_spec.
  change (Prim2SF 0) with (S754_zero false). intros Hf Hp.
  destruct (Prim2SF x) as [s|s| |s m e]; try discriminate Hf;
    destruct s; try (cbv in Hp; discriminate Hp).
  now exists m, e.
Qed.

Lemma zero_number (x : float) :
  (x =? 0)%float = true -> exists s, Prim2SF x = S754_zero s.
Proof.
  rewrite FloatAxioms.eqb_spec.
  change (Prim2SF 0) with (S754_zero false). intro H.
  destruct (Prim2SF x) as [s|s| |s m e];
    try (cbv in H; discriminate H);
    try (destruct s; cbv in H; discriminate H).
  now exists s.
Qed.

(** X11.  Of a series only the first and the last close reach the
    summary: two frames with the same first close and the same last
    close give the same entry, whatever their other rows and columns. *)
Theorem entry_depends_on_first_and_last_close (data1 data2 : DataFrame) :
  first_close data1 = first_close data2 ->
  last_close data1 = last_close data2 ->
  empty data1 = empty data2 /\ portfolio_entry data1 = portfolio_entry data2.
Proof.
  intros Hf Hl. destruct (first_close data1) as [first|] eqn:E1.
  - destruct (closes_of_nonempty _ E1) as [last E2].
    rewrite E2 in Hl. symmetry in Hf, Hl.
    rewrite (portfolio_entry_spec _ E1 E2), (portfolio_entry_spec _ Hf Hl).
    destruct data1; [discriminate E1|]. destruct data2; [discriminate Hf|].
    split; reflexivity.
  - apply first_close_None in E1. symmetry in Hf.
    apply first_close_None in Hf. subst. split; reflexivity.
Qed.

Lemma unchanged_formats (x : float) :
  finite x = true -> (0 <? x)%float = true ->
  format_f true 2 (x - x)%float = "+0.00"
  /\ format_f true 2 ((x - x) / x * 100)%float = "+0.00".
Proof.
  intros Hx Hp. destruct (positive_number Hx Hp) as (m & e & E).
  unfold format_f. split.
  - now rewrite sub_spec, E, SF64sub_same.
  - now rewrite mul_spec, div_spec, sub_spec, E, SF64sub_same.
Qed.

Lemma render_line_unchanged (result symbol : string) (x : float) :
  finite x = true -> (0 <? x)%float = true ->
  render_line result (symbol, entry_of x x) =
  result ++ symbol ++ ": $" ++ format_f false 2 x ++ " (+0.00, +0.00%)" ++ nl.
Proof.
  intros Hx Hp. destruct (unchanged_formats Hx Hp) as [Hc Hpct].
  rewrite render_line_summary. unfold summary_line.
  cbn [fst snd entry_of current_price change change_pct].
  rewrite Hc, Hpct. reflexivity.
Qed.

Lemma zero_base_format (first last : float) :
  (first =? 0)%float = true ->
  format_f true 2 ((last - first) / first * 100)%float = "+inf"
  \/ format_f true 2 ((last - first) / first * 100)%float = "-inf"
  \/ format_f true 2 ((last - first) / first * 100)%float = "+nan".
Proof.
  intro Hz. destruct (zero_number Hz) as [s E]. unfold format_f.
  rewrite mul_spec, div_spec, sub_spec, E.
  destruct (Prim2SF last) as [t|t| |t m e]; destruct s; try destruct t;
    vm_compute; auto.
Qed.

Section EntryFacts.

Context {env : Services}.
Implicit Types (w : World env) (symbols period : string).

(** X12.  A series whose first and last closes are the same positive
    number, as is any series of a single row, is summarised as
    unchanged: the line the second loop renders for its entry shows the
    close and then "(+0.00, +0.00%)", and the summary of an input that
    names only that symbol is the header followed by that line. *)
Theorem unchanged_series_prints_zero symbols period w data w1 (x : float) :
  split "," symbols = [symbols] ->
  history env (MkTicker (strip symbols)) period w = (Returns data, w1) ->
  first_close data = Some x ->
  last_close data = Some x ->
  finite x = true ->
  (0 <? x)%float = true ->
  analyze_portfolio symbols period w =
    (Returns (header ++ strip symbols ++ ": $" ++ format_f false 2 x
                ++ " (+0.00, +0.00%)" ++ nl), w1)
  /\ forall result symbol e,
       portfolio_entry data = Returns e ->
       render_line result (symbol, e) =
       result ++ symbol ++ ": $" ++ format_f false 2 x
         ++ " (+0.00, +0.00%)" ++ nl.
Proof.
  intros Hs Hh Hf Hl Hx Hp. split.
  - rewrite (analyze_single_field _ _ Hs Hh Hf Hl).
    now rewrite render_line_unchanged.
  - intros result symbol e He.
    rewrite (portfolio_entry_spec _ Hf Hl) in He. injection He as <-.
    now apply render_line_unchanged.
Qed.

(** X13.  A first close of zero stops nothing: the division raises no
    error, the line of the entry is rendered, and where the percent
    change belongs it shows "+inf", "-inf" or "+nan"; the summary of an
    input that names only that symbol is the header followed by that
    line. *)
Theorem zero_first_close_prints_inf_or_nan symbols period w data w1
    (first last : float) :
  split "," symbols = [symbols] ->
  history env (MkTicker (strip symbols)) period w = (Returns data, w1) ->
  first_close data = Some first ->
  last_close data = Some last ->
  (first =? 0)%float = true ->
  exists pct,
    (pct = "+inf" \/ pct = "-inf" \/ pct = "+nan")
    /\ analyze_portfolio symbols period w =
         (Returns (header ++ strip symbols ++ ": $" ++ format_f false 2 last
                     ++ " (" ++ format_f true 2 (last - first)%float
                     ++ ", " ++ pct ++ "%)" ++ nl), w1)
    /\ forall result symbol e,
         portfolio_entry data = Returns e ->
         render_line result (symbol, e) =
         result ++ symbol ++ ": $" ++ format_f false 2 last
           ++ " (" ++ format_f true 2 (last - first)%float
           ++ ", " ++ pct ++ "%)" ++ nl.
Proof.
  intros Hs Hh Hf Hl Hz.
  exists (format_f true 2 ((last - first) / first * 100)%float).
  split; [exact (zero_base_format last Hz)|]. split.
  - rewrite (analyze_single_field _ _ Hs Hh Hf Hl).
    now rewrite render_line_summary.
  - intros result symbol e He.
    rewrite (portfolio_entry_spec _ Hf Hl) in He. injection He as <-.
    now rewrite render_line_summary.
Qed.

End EntryFacts.

(** ** The printed numbers *)

Lemma all_digits_append (a b : string) :
  all_digits a = true -> all_digits b = true -> all_digits (a ++ b) = true.
Proof.
  induction a as [|c a IH]; [auto|].
  cbn [append all_digits]. intros Ha Hb. apply andb_prop in Ha.
  destruct Ha as [Hc Ha]. now rewrite Hc, IH.
Qed.

Lemma all_digits_string_of_uint (d : Decimal.uint) :
  all_digits (NilEmpty.string_of_uint d) = true.
Proof. induction d; cbn; auto. Qed.

Lemma all_digits_show_Z (z : Z) : all_digits (show_Z z) = true.
Proof.
  unfold show_Z. generalize (N.to_uint (Z.to_N z)). intro d.
  pose proof (all_digits_string_of_uint d) as H. destruct d; auto.
Qed.

Lemma show_Z_not_empty (z : Z) : show_Z z <> EmptyString.
Proof.
  unfold show_Z. generalize (N.to_uint (Z.to_N z)). intro d.
  destruct d; discriminate.
Qed.

Lemma all_digits_zeros (n : nat) : all_digits (str_mul "0" n) = true.
Proof. induction n as [|n IH]; [reflexivity | exact IH]. Qed.

Lemma all_digits_zfill (width : nat) (s : string) :
  all_digits s = true -> all_digits (zfill width s) = true.
Proof. intro H. unfold zfill. apply all_digits_append; [apply all_digits_zeros | exact H]. Qed.

Lemma length_two_digits (k : Z) :
  0 <= k < 100 -> String.length (zfill 2 (show_Z k)) = 2%nat.
Proof.
  intro Hk.
  assert (T : forallb (fun j => Nat.eqb (String.length (zfill 2 (show_Z (Z.of_nat j)))) 2)
                (seq 0 100) = true) by (vm_compute; reflexivity).
  rewrite forallb_forall in T. specialize (T (Z.to_nat k)).
  rewrite Z2Nat.id in T by lia. apply Nat.eqb_eq, T, in_seq. lia.
Qed.

Lemma fixed_digits_two (n : Z) :
  exists int frac,
    fixed_digits 2 n = int ++ "." ++ frac
    /\ all_digits int = true /\ int <> EmptyString
    /\ all_digits frac = true /\ String.length frac = 2%nat.
Proof.
  exists (show_Z (n / 100)), (zfill 2 (show_Z (n mod 100))).
  split; [reflexivity|]. split; [apply all_digits_show_Z|].
  split; [apply show_Z_not_empty|].
  split; [apply all_digits_zfill, all_digits_show_Z|].
  apply length_two_digits, Z.mod_pos_bound. lia.
Qed.

(** X15.  A finite number is printed by [.2f] and [+.2f] as an optional
    sign, at least one digit, a point and exactly two digits; under
    [+.2f], the format of the change and of the percent change, the sign
    is always there, "+" or "-". *)
Theorem finite_numbers_print_with_two_decimals (always_sign : bool) (x : float) :
  finite x = true ->
  exists sign int frac,
    format_f always_sign 2 x = sign ++ int ++ "." ++ frac
    /\ (sign = "-" \/ sign = if always_sign then "+" else EmptyString)
    /\ all_digits int = true /\ int <> EmptyString
    /\ all_digits frac = true /\ String.length frac = 2%nat.
Proof.
  unfold finite, format_f. intro H.
  destruct (Prim2SF x) as [s|s| |s m e]; try discriminate H.
  - destruct (fixed_digits_two 0) as (int & frac & -> & Hrest).
    exists (sign_str always_sign s), int, frac.
    split; [reflexivity|]. split; [|exact Hrest].
    destruct s; [now left | now right].
  - destruct (fixed_digits_two (scaled_round 2 (Z.pos m) e))
      as (int & frac & -> & Hrest).
    exists (sign_str always_sign s), int, frac.
    split; [reflexivity|]. split; [|exact Hrest].
    destruct s; [now left | now right].
Qed.

(** X16.  The number printed with [prec] decimals is the multiple of
    [10^-prec] nearest to the exact value [m * 2^e] of the float, and on
    a tie the even one: exact when the float is an integer, and
    otherwise off by at most half a unit of the last printed place. *)
Theorem printed_number_is_nearest (always_sign : bool) (prec : nat) (x : float)
    (s : bool) (m : positive) (e : Z) :
  Prim2SF x = S754_finite s m e ->
  exists n,
    format_f always_sign prec x = sign_str always_sign s ++ fixed_digits prec n
    /\ (0 <= e -> n = Z.pos m * 10 ^ Z.of_nat prec * 2 ^ e)
    /\ (e < 0 ->
        2 * Z.abs (n * 2 ^ (- e) - Z.pos m * 10 ^ Z.of_nat prec) <= 2 ^ (- e)
        /\ (2 * Z.abs (n * 2 ^ (- e) - Z.pos m * 10 ^ Z.of_nat prec) = 2 ^ (- e)
            -> Z.even n = true)).
Proof.
  intro E. exists (scaled_round prec (Z.pos m) e).
  split; [unfold format_f; now rewrite E|].
  unfold scaled_round. split.
  - intro He. apply Z.leb_le in He. now rewrite He.
  - intro He. assert (Hn : (0 <=? e) = false) by (apply Z.leb_gt; exact He).
    rewrite Hn. cbv zeta.
    set (n := Z.pos m * 10 ^ Z.of_nat prec).
    set (d := 2 ^ (- e)).
    assert (Hd : 0 < d) by (apply Z.pow_pos_nonneg; lia).
    pose proof (Z.div_mod n d ltac:(lia)) as Hdiv.
    pose proof (Z.mod_pos_bound n d Hd) as Hr.
    set (q := n / d) in *. set (r := n mod d) in *.
    destruct (Z.compare_spec (2 * r) d) as [Heq|Hlt|Hgt].
    + destruct (Z.even q) eqn:Hq.
      * split; [nia|]. intros _. exact Hq.
      * split; [nia|]. intros _.
        rewrite Z.add_1_r, Z.even_succ, <- Z.negb_even, Hq. reflexivity.
    + split; [nia|]. intro Ht. exfalso. nia.
    + split; [nia|]. intro Ht. exfalso. nia.
Qed.

(** * The further properties at work on the test double *)

Lemma summary_lines_follow_first_occurrence_witness :
  exists entries,
    analyze_portfolio (env:=Demo.services) "TSLA,AAPL,GONE, TSLA" "1mo"
      Demo.unreachable
    = (Returns (header ++ cat (map summary_line entries)),
       Demo.tick (Demo.tick (Demo.tick (Demo.tick Demo.unreachable))))
    /\ keys entries = ["TSLA"; "AAPL"].
Proof.
  apply (@summary_lines_follow_first_occurrence Demo.services
           "TSLA,AAPL,GONE, TSLA" "1mo" Demo.unreachable
           [("TSLA", Demo.closes [200; 150]%float);
            ("AAPL", Demo.closes [100; 120]%float);
            ("GONE", []);
            ("TSLA", Demo.closes [200; 150]%float)]
           (Demo.tick (Demo.tick (Demo.tick (Demo.tick Demo.unreachable))))).
  reflexivity.
Defined.

Lemma summary_ignores_surrounding_whitespace_witness :
  analyze_portfolio (env:=Demo.services) " AAPL ,TSLA" "1mo" Demo.unreachable
  = analyze_portfolio (env:=Demo.services) "AAPL,  TSLA " "1mo" Demo.unreachable.
Proof.
  apply (@summary_ignores_surrounding_whitespace Demo.services
           " AAPL ,TSLA" "AAPL,  TSLA " "1mo" Demo.unreachable).
  reflexivity.
Defined.


Lemma fetched_symbols_are_clean_witness :
  analyze_portfolio (env:=traced Demo.services) "AAPL,  BRK B ,DOWN,TSLA" "1mo"
    (Demo.unreachable, [])
  = (Returns "Error analyzing portfolio: network down",
     (Demo.tick (Demo.tick (Demo.tick Demo.unreachable)),
      [("AAPL", "1mo"); ("BRK B", "1mo"); ("DOWN", "1mo")]))
  /\ ("1mo" = "1mo" /\ count_char "," "BRK B" = O
      /\ trimmed "BRK B" /\ strip "BRK B" = "BRK B").
Proof.
  split; [reflexivity|].
  apply (@fetched_symbols_are_clean Demo.services "AAPL,  BRK B ,DOWN,TSLA"
           "1mo" Demo.unreachable "Error analyzing portfolio: network down"
           (Demo.tick (Demo.tick (Demo.tick Demo.unreachable)))
           [("AAPL", "1mo"); ("BRK B", "1mo"); ("DOWN", "1mo")]
           eq_refl "BRK B" "1mo").
  right. left. reflexivity.
Defined.

Lemma summary_without_data_is_the_header_witness :
  analyze_portfolio (env:=Demo.services) EmptyString "1mo" Demo.unreachable
  = (Returns header, Demo.tick Demo.unreachable)
  /\ analyze_portfolio (env:=Demo.services) "GONE, NOPE" "1mo" Demo.unreachable
     = (Returns header, Demo.tick (Demo.tick Demo.unreachable)).
Proof.
  split.
  - apply (@summary_without_data_is_the_header Demo.services EmptyString "1mo"
             Demo.unreachable [(EmptyString, [])] (Demo.tick Demo.unreachable));
      reflexivity.
  - apply (@summary_without_data_is_the_header Demo.services "GONE, NOPE" "1mo"
             Demo.unreachable [("GONE", []); ("NOPE", [])]
             (Demo.tick (Demo.tick Demo.unreachable)));
      reflexivity.
Defined.

Lemma quote_success_shows_last_rows_witness :
  exists older rows,
    get_stock_data (env:=Demo.services) "AAPL" "1mo" Demo.unreachable
    = (Returns ("Stock data for AAPL:" ++ nl ++ Demo.render rows),
       Demo.tick Demo.unreachable)
    /\ Demo.closes [100; 104; 110]%float = (older ++ rows)%list
    /\ List.length rows = 3%nat.
Proof.
  apply (@quote_success_shows_last_rows Demo.services "AAPL" "1mo"
           Demo.unreachable (Demo.closes [100; 104; 110]%float)
           (Demo.tick Demo.unreachable)).
  reflexivity.
Defined.

Lemma advice_failure_looks_like_an_answer_witness :
  fst (ai_financial_advice (env:=Demo.services) Demo.gold Demo.unreachable)
  = fst (ai_financial_advice (env:=Demo.services) Demo.gold
           (Demo.answering 200
              (Some (JObject [("response",
                               JString "AI Response: Should I buy gold?")])))).
Proof.
  apply (@advice_failure_looks_like_an_answer Demo.services Demo.gold
           Demo.unreachable (Exn "ConnectionError" "connection refused")
           (Demo.tick Demo.unreachable)
           (Demo.answering 200
              (Some (JObject [("response",
                               JString "AI Response: Should I buy gold?")])))
           (MkResponse 200
              (Some (JObject [("response",
                               JString "AI Response: Should I buy gold?")])))
           (Demo.tick
              (Demo.answering 200
                 (Some (JObject [("response",
                                  JString "AI Response: Should I buy gold?")])))));
    reflexivity.
Defined.

Lemma entry_depends_on_first_and_last_close_witness :
  empty (Demo.closes [100; 104; 110]%float) = empty (Demo.closes [100; 110]%float)
  /\ portfolio_entry (Demo.closes [100; 104; 110]%float)
     = portfolio_entry (Demo.closes [100; 110]%float).
Proof.
  apply (@entry_depends_on_first_and_last_close
           (Demo.closes [100; 104; 110]%float) (Demo.closes [100; 110]%float));
    reflexivity.
Defined.

Lemma unchanged_series_prints_zero_witness :
  analyze_portfolio (env:=fixed_source (Demo.closes [150]%float)) "ONE" "1d" O
  = (Returns (header ++ "ONE: $150.00 (+0.00, +0.00%)" ++ nl), 1%nat).
Proof.
  apply (@unchanged_series_prints_zero (fixed_source (Demo.closes [150]%float))
           "ONE" "1d" O (Demo.closes [150]%float) 1%nat 150%float);
    reflexivity.
Defined.

Lemma zero_first_close_prints_inf_or_nan_witness :
  exists pct,
    (pct = "+inf" \/ pct = "-inf" \/ pct = "+nan")
    /\ analyze_portfolio (env:=fixed_source (Demo.closes [0; 5]%float))
         "ZERO" "1mo" O
       = (Returns (header ++ "ZERO: $5.00 (+5.00, " ++ pct ++ "%)" ++ nl), 1%nat).
Proof.
  destruct (@zero_first_close_prints_inf_or_nan
              (fixed_source (Demo.closes [0; 5]%float))
              "ZERO" "1mo" O (Demo.closes [0; 5]%float) 1%nat 0%float 5%float
              eq_refl eq_refl eq_refl eq_refl eq_refl)
    as (pct & Hpct & Hrun & _).
  exists pct. split; [exact Hpct | exact Hrun].
Defined.

Lemma finite_numbers_print_with_two_decimals_witness :
  exists sign int frac,
    format_f true 2 110%float = sign ++ int ++ "." ++ frac
    /\ (sign = "-" \/ sign = "+")
    /\ all_digits int = true /\ int <> EmptyString
    /\ all_digits frac = true /\ String.length frac = 2%nat.
Proof.
  apply (@finite_numbers_print_with_two_decimals true 110%float).
  reflexivity.
Defined.

Lemma printed_number_is_nearest_witness :
  exists n,
    format_f false 2 0.125%float = fixed_digits 2 n
    /\ (0 <= -55 -> n = 4503599627370496 * 100 * 2 ^ (-55))
    /\ (-55 < 0 ->
        2 * Z.abs (n * 2 ^ 55 - 4503599627370496 * 100) <= 2 ^ 55
        /\ (2 * Z.abs (n * 2 ^ 55 - 4503599627370496 * 100) = 2 ^ 55
            -> Z.even n = true)).
Proof.
  apply (@printed_number_is_nearest false 2 0.125%float false
           4503599627370496%positive (-55)).
  reflexivity.
Defined.
